(** * CloudFormation converter: a shallow embedding of
      [scripts/cloudformation_converter.py] and the properties of its
      three converters, its loader and its entry point.

    The Python values that [json.load] produces are embedded as the
    inductive type [json]; a Python [dict] is a [gmap] from strings, a
    Python [list] a [list].  A Python expression that may raise is a
    computation in the error monad [result]. *)

From Stdlib Require Import Ascii.
From stdpp Require Import gmap strings list fin_maps pretty.

#[local] Set Warnings "-clear-no-such-hyp".

(** ** Values *)

(** What [json.load] returns: [None], a [bool], an [int], a [float]
    (kept as its literal: the converters never compute with it), a [str],
    a [list] or a [dict] with string keys. *)
#[warnings="-register-all"]
Inductive json : Type :=
  | JNull
  | JBool (b : bool)
  | JInt (z : Z)
  | JFloat (lit : string)
  | JStr (s : string)
  | JList (l : list json)
  | JObj (m : gmap string json).

(** The exceptions the script can meet.  [SystemExit] is what [sys.exit]
    raises; [OtherError] stands for an exception class the script names
    nowhere (an [OSError] other than [FileNotFoundError], say). *)
Inductive exn : Type :=
  | TypeError
  | AttributeError
  | KeyError
  | FileNotFoundError
  | JSONDecodeError
  | OtherError (name : string)
  | SystemExit (code : Z).

Inductive result (A : Type) : Type :=
  | Ok (a : A)
  | Raise (e : exn).
Arguments Ok {A} a.
Arguments Raise {A} e.

#[global] Instance result_ret : MRet result := λ A a, Ok a.
#[global] Instance result_bind : MBind result := λ A B f r,
  match r with
  | Ok a => f a
  | Raise e => Raise e
  end.

Definition is_Ok {A} (r : result A) : Prop := ∃ a, r = Ok a.
Definition is_Raise {A} (r : result A) : Prop := ∃ e, r = Raise e.

(** ** The Python operations the script uses *)

Module Py.

(** [old in s] for two strings: [old] occurs in [s]. *)
Fixpoint substring_of (old s : string) : bool :=
  String.prefix old s ||
  match s with
  | EmptyString => false
  | String _ s' => substring_of old s'
  end.

(** [x == s] where [s] is a [str]: only an equal [str] compares equal. *)
Definition eq_str (x : json) (s : string) : bool :=
  match x with
  | JStr t => bool_decide (t = s)
  | _ => false
  end.

(** [key in x], the membership test, with a [str] on the left: a key test
    on a dict, an element test on a list, a substring test on a str, and a
    [TypeError] on the values that are not containers. *)
Definition contains (key : string) (x : json) : result bool :=
  match x with
  | JObj m => Ok (bool_decide (is_Some (m !! key)))
  | JList l => Ok (existsb (λ y, eq_str y key) l)
  | JStr s => Ok (substring_of key s)
  | _ => Raise TypeError
  end.

(** [x[key]] with a [str] subscript: only a dict accepts it, and raises
    [KeyError] on a missing key. *)
Definition getitem (x : json) (key : string) : result json :=
  match x with
  | JObj m =>
      match m !! key with
      | Some v => Ok v
      | None => Raise KeyError
      end
  | _ => Raise TypeError
  end.

(** [x.get(key, dflt)]: a method of dicts only. *)
Definition get (x : json) (key : string) (dflt : json) : result json :=
  match x with
  | JObj m => Ok (default dflt (m !! key))
  | _ => Raise AttributeError
  end.

(** The elements a [for] loop over [x] visits.  A dict yields its keys
    and a str its characters; the order of a dict's keys is the map's
    here, not the insertion order, which no result below depends on. *)
Definition iter (x : json) : result (list json) :=
  match x with
  | JList l => Ok l
  | JObj m => Ok (JStr <$> (map_to_list m).*1)
  | JStr s => Ok ((λ c, JStr (String c EmptyString)) <$> String.list_ascii_of_string s)
  | _ => Raise TypeError
  end.

(** [s.replace(old, new)] for a one-character [old]. *)
Fixpoint replace (old : ascii) (new : string) (s : string) : string :=
  match s with
  | EmptyString => EmptyString
  | String c s' =>
      if Ascii.eqb c old then new +:+ replace old new s'
      else String c (replace old new s')
  end.

(** [x.replace('-', '')] on a value: [replace] is a method of [str]. *)
Definition strip_hyphens (x : json) : result string :=
  match x with
  | JStr s => Ok (replace "-"%char "" s)
  | _ => Raise AttributeError
  end.

End Py.

(** The field [key] of a dict value, [None] on anything else. *)
Definition field (key : string) (x : json) : option json :=
  match x with
  | JObj m => m !! key
  | _ => None
  end.

(** ** The runtime the script runs on *)

(** What the script asks of the interpreter and the operating system: the
    file system ([Path.exists], [open] for reading and for writing, path
    joining with [/]) and the [json] codec.  A path is kept as the string
    [str()] prints for it.

    Writing takes two steps, as in the script.  [open_w] is [open(p, 'w')]:
    it creates the file or truncates it, and leaves the disk alone when it
    raises.  [write_text] is what follows inside the [with] block, the text
    going into the open file and the file being closed: it tells whether
    that raised and which disk it leaves, with the whole text in the file
    or, after an exception, whatever part of it got there. *)
Class Runtime : Type := {
  fs : Type;
  Path : string → string;
  joinpath : string → string → string;
  path_exists : fs → string → bool;
  open_read : fs → string → result string;
  open_w : fs → string → result fs;
  write_text : fs → string → string → result unit * fs;
  json_load : string → result json;
  json_dump : json → string;
}.

(** The disk that opening [p] for writing and writing [text] leave when
    both steps return. *)
Definition open_write {rt : Runtime} (d : fs) (p text : string) : result fs :=
  d1 ← open_w d p;
  match write_text d1 p text with
  | (Ok _, d2) => Ok d2
  | (Raise e, _) => Raise e
  end.

(** A small runtime to run the script on.  The file system is a map from
    paths to directories and files.  The codec writes a document on one
    line, a dict's keys in the order of the map, strings without escapes,
    nesting cut off at depth [fuel]; it reads back one document, the empty
    object.  The properties hold on every runtime: this one only serves to
    run the script on the sample exports. *)
Inductive node : Type :=
  | Dir
  | File (text : string).

Definition quoted (s : string) : string :=
  String "034"%char s +:+ String "034"%char EmptyString.

Fixpoint dump (fuel : nat) (x : json) : string :=
  match fuel with
  | 0 => "..."
  | S fuel =>
      match x with
      | JNull => "null"
      | JBool true => "true"
      | JBool false => "false"
      | JInt z => pretty z
      | JFloat lit => lit
      | JStr s => quoted s
      | JList l => "[" +:+ String.concat ", " (dump fuel <$> l) +:+ "]"
      | JObj m =>
          "{" +:+ String.concat ", "
                    ((λ kv, quoted kv.1 +:+ ": " +:+ dump fuel kv.2) <$> map_to_list m)
              +:+ "}"
      end
  end.

Definition flat_runtime : Runtime := {|
  fs := gmap string node;
  Path := λ s, s;
  joinpath := λ d name, d +:+ "/" +:+ name;
  path_exists := λ d p, bool_decide (is_Some (d !! p));
  open_read := λ d p,
    match d !! p with
    | Some (File text) => Ok text
    | Some Dir => Raise (OtherError "IsADirectoryError")
    | None => Raise FileNotFoundError
    end;
  open_w := λ d p,
    match d !! p with
    | Some Dir => Raise (OtherError "IsADirectoryError")
    | _ => Ok (<[p := File ""]> d)
    end;
  write_text := λ d p text, (Ok (), <[p := File text]> d);
  json_load := λ text,
    if bool_decide (text = "{}") then Ok (JObj ∅) else Raise JSONDecodeError;
  json_dump := dump 16;
|}.

(** A runtime like [flat_runtime] on a disk with a quota: no file grows
    beyond [quota] characters.  A longer text is written up to the quota,
    and the write raises [OSError]. *)
Fixpoint take_string (n : nat) (s : string) : string :=
  match n, s with
  | S n, String c s => String c (take_string n s)
  | _, _ => EmptyString
  end.

Definition quota_runtime (quota : nat) : Runtime := {|
  fs := gmap string node;
  Path := λ s, s;
  joinpath := λ d name, d +:+ "/" +:+ name;
  path_exists := λ d p, bool_decide (is_Some (d !! p));
  open_read := λ d p,
    match d !! p with
    | Some (File text) => Ok text
    | Some Dir => Raise (OtherError "IsADirectoryError")
    | None => Raise FileNotFoundError
    end;
  open_w := λ d p,
    match d !! p with
    | Some Dir => Raise (OtherError "IsADirectoryError")
    | _ => Ok (<[p := File ""]> d)
    end;
  write_text := λ d p text,
    if bool_decide (String.length text ≤ quota)
    then (Ok (), <[p := File text]> d)
    else (Raise (OtherError "OSError"), <[p := File (take_string quota text)]> d);
  json_load := λ text,
    if bool_decide (text = "{}") then Ok (JObj ∅) else Raise JSONDecodeError;
  json_dump := dump 16;
|}.

(** A stand-in for [str()] on floats, lists and dicts, for the runs below,
    none of which prints such a value. *)
Definition placeholder_repr : json → string := λ _, "<object>".

(** ** Sample exports *)

Module Sample.

Definition default_sg : json :=
  JObj {[ "GroupId" := JStr "sg-0000"; "GroupName" := JStr "default" ]}.

Definition ssh_rule : gmap string json :=
  {[ "IpProtocol" := JStr "tcp"; "FromPort" := JInt 22; "ToPort" := JInt 22;
     "IpRanges" := JList [ JObj {[ "CidrIp" := JStr "10.0.0.0/8" ]};
                           JObj {[ "CidrIp" := JStr "0.0.0.0/0" ]} ] ]}.

Definition ssh_entries : list json :=
  [ JObj {[ "CidrIp" := JStr "10.0.0.0/8"; "IpProtocol" := JStr "tcp";
            "FromPort" := JInt 22; "ToPort" := JInt 22 ]};
    JObj {[ "CidrIp" := JStr "0.0.0.0/0"; "IpProtocol" := JStr "tcp";
            "FromPort" := JInt 22; "ToPort" := JInt 22 ]} ].

Definition bare_rule : json :=
  JObj {[ "IpProtocol" := JStr "udp"; "IpRanges" := JList [] ]}.

Definition web_sg : json :=
  JObj {[ "IpPermissions" := JList [JObj ssh_rule];
          "GroupId" := JStr "sg-0a1b"; "GroupName" := JStr "web" ]}.

Definition web_descriptor : json :=
  JObj {[ "Type" := JStr "AWS::EC2::SecurityGroup";
          "Properties" := JObj {[
            "GroupDescription" := JStr "Imported security group";
            "SecurityGroupIngress" := JList ssh_entries;
            "Tags" := JList [
              JObj {[ "Key" := JStr "Name";
                      "Value" := JStr "Imported-web" ]} ] ]} ]}.

Definition two_vpcs : list json :=
  [ JObj {[ "VpcId" := JStr "vpc-0a"; "CidrBlock" := JStr "10.1.0.0/16" ]};
    JObj {[ "VpcId" := JStr "vpc-0b" ]} ].

Definition vpc_dns_off : json :=
  JObj (<["EnableDnsSupport" := JBool false]> {[ "VpcId" := JStr "vpc-0a" ]}).

Definition vpc_dns_on : json :=
  JObj (<["EnableDnsSupport" := JBool true]> {[ "VpcId" := JStr "vpc-0a" ]}).

Definition bad_instance : gmap string json :=
  {[ "InstanceId" := JStr "i-0123";
     "SecurityGroups" := JList [ JObj {[ "GroupId" := JStr "sg-0a1b" ]};
                                 JObj {[ "GroupName" := JStr "web" ]} ] ]}.

Definition good_instance : json :=
  JObj {[ "InstanceId" := JStr "i-0456";
          "SecurityGroups" := JList [ JObj {[ "GroupId" := JStr "sg-0a1b" ]} ] ]}.

(** A directory without any of the three export files. *)
Definition empty_dir : gmap string node := {[ "exports" := Dir ]}.

End Sample.

(** A runtime like [flat_runtime] whose parser knows the documents of a
    table: it reads a file's text as the document listed for it, and
    rejects any other text. *)
Definition table_runtime (documents : list (string * json)) : Runtime := {|
  fs := gmap string node;
  Path := λ s, s;
  joinpath := λ d name, d +:+ "/" +:+ name;
  path_exists := λ d p, bool_decide (is_Some (d !! p));
  open_read := λ d p,
    match d !! p with
    | Some (File text) => Ok text
    | Some Dir => Raise (OtherError "IsADirectoryError")
    | None => Raise FileNotFoundError
    end;
  open_w := λ d p,
    match d !! p with
    | Some Dir => Raise (OtherError "IsADirectoryError")
    | _ => Ok (<[p := File ""]> d)
    end;
  write_text := λ d p text, (Ok (), <[p := File text]> d);
  json_load := λ text,
    match List.find (λ entry, bool_decide (entry.1 = text)) documents with
    | Some entry => Ok entry.2
    | None => Raise JSONDecodeError
    end;
  json_dump := dump 16;
|}.

Module Exports.

Definition vpcs : json := JObj {[ "Vpcs" := JList Sample.two_vpcs ]}.

Definition bad_vpcs : json :=
  JObj {[ "Vpcs" := JList [JObj {[ "VpcId" := JInt 5 ]}] ]}.

Definition colliding_vpcs : list json :=
  [ JObj {[ "VpcId" := JStr "vpc-a1"; "CidrBlock" := JStr "10.0.0.0/16" ]};
    JObj {[ "VpcId" := JStr "vpca-1"; "CidrBlock" := JStr "10.9.0.0/16" ]} ].

Definition sgs : json :=
  JObj {[ "SecurityGroups" := JList [Sample.default_sg; Sample.web_sg] ]}.

Definition mixed_vpcs : list json :=
  [ JObj {[ "VpcId" := JStr "vpc-0a-1b" ]}; JObj ∅ ].

Definition other_instance : json :=
  JObj {[ "InstanceId" := JStr "i-0789"; "InstanceType" := JStr "t3.small" ]}.

Definition reservations : list json :=
  [ JObj {[ "Instances" := JList [Sample.good_instance] ]};
    JObj {[ "OwnerId" := JStr "123456789012" ]};
    JObj {[ "Instances" := JList [other_instance] ]} ].

Definition instances : json := JObj {[ "Reservations" := JList reservations ]}.

Definition documents : list (string * json) :=
  [ ("<vpcs>", vpcs); ("<bad vpcs>", bad_vpcs); ("<instances>", instances) ].

(** An export directory with the network and the compute export, a
    directory in the place of the access-control export's neighbour, and a
    file that is not a document. *)
Definition disk : gmap string node :=
  {[ "exports" := Dir;
     "exports/vpcs.json" := File "<vpcs>";
     "exports/ec2-instances.json" := File "<instances>";
     "exports/notes.json" := File "to do";
     "exports/archive" := Dir ]}.

Definition bad_disk : gmap string node :=
  {[ "exports" := Dir; "exports/vpcs.json" := File "<bad vpcs>" ]}.

End Exports.

(** ** The script *)

Section Script.

(** [str()] of a float, a list or a dict, as the interpreter prints it
    inside an f-string.  It belongs to the runtime, not to the script, and
    every result below holds whatever it is. *)
Variable py_repr : json → string.

(** What [f"{x}"] interpolates. *)
Definition format (x : json) : string :=
  match x with
  | JStr s => s
  | JNull => "None"
  | JBool true => "True"
  | JBool false => "False"
  | JInt z => pretty z
  | _ => py_repr x
  end.

(** *** [convert_vpc_to_cf] *)

(** The body of the loop over [enumerate(vpcs_data['Vpcs'])]: the key and
    the descriptor stored for the record [vpc] at index [i]. *)
Definition vpc_entry (i : nat) (vpc : json) : result (string * json) :=
  vpc_id ← Py.get vpc "VpcId" (JStr ("VPC" +:+ pretty i));
  stripped ← Py.strip_hyphens vpc_id;
  let resource_name := "VPC" +:+ stripped in
  cidr ← Py.get vpc "CidrBlock" (JStr "10.0.0.0/16");
  Ok (resource_name,
      JObj {[ "Type" := JStr "AWS::EC2::VPC";
              "Properties" := JObj {[
                "CidrBlock" := cidr;
                "EnableDnsHostnames" := JBool true;
                "EnableDnsSupport" := JBool true;
                "Tags" := JList [
                  JObj {[ "Key" := JStr "Name";
                          "Value" := JStr ("Imported-" +:+ format vpc_id) ]} ] ]} ]}).

Fixpoint vpc_loop (i : nat) (vpcs : list json) (resources : gmap string json)
  : result (gmap string json) :=
  match vpcs with
  | [] => Ok resources
  | vpc :: rest =>
      '(resource_name, descriptor) ← vpc_entry i vpc;
      vpc_loop (S i) rest (<[resource_name := descriptor]> resources)
  end.

Definition convert_vpc_to_cf (vpcs_data : json) : result (gmap string json) :=
  present ← Py.contains "Vpcs" vpcs_data;
  if present : bool then
    vpcs ← Py.getitem vpcs_data "Vpcs";
    records ← Py.iter vpcs;
    vpc_loop 0 records ∅
  else Ok ∅.

(** *** [convert_security_groups_to_cf] *)

(** The inner loop over [rule.get('IpRanges', [])]: one copy of [cf_rule]
    per address range, appended to [ingress_rules]. *)
Fixpoint range_loop (cf_rule : gmap string json) (ranges : list json)
    (ingress_rules : list json) : result (list json) :=
  match ranges with
  | [] => Ok ingress_rules
  | ip_range :: rest =>
      cidr ← Py.get ip_range "CidrIp" (JStr "0.0.0.0/0");
      let cf_rule_copy := <["CidrIp" := cidr]> cf_rule in
      range_loop cf_rule rest (ingress_rules ++ [JObj cf_rule_copy])
  end.

(** One turn of the loop over [sg.get('IpPermissions', [])]. *)
Definition rule_step (rule : json) (ingress_rules : list json) : result (list json) :=
  proto ← Py.get rule "IpProtocol" (JStr "tcp");
  from_port ← Py.get rule "FromPort" (JInt 80);
  to_port ← Py.get rule "ToPort" (JInt 80);
  let cf_rule : gmap string json :=
    {[ "IpProtocol" := proto; "FromPort" := from_port; "ToPort" := to_port ]} in
  ip_ranges ← Py.get rule "IpRanges" (JList []);
  ranges ← Py.iter ip_ranges;
  range_loop cf_rule ranges ingress_rules.

Fixpoint rule_loop (rules : list json) (ingress_rules : list json)
  : result (list json) :=
  match rules with
  | [] => Ok ingress_rules
  | rule :: rest =>
      ingress_rules' ← rule_step rule ingress_rules;
      rule_loop rest ingress_rules'
  end.

(** The body of the loop over [sg_data['SecurityGroups']]: [None] when
    the record is skipped by [continue], otherwise the key and the
    descriptor stored for it. *)
Definition sg_entry (sg : json) : result (option (string * json)) :=
  group_name ← Py.get sg "GroupName" JNull;
  if Py.eq_str group_name "default" then Ok None
  else
    sg_id ← Py.get sg "GroupId" (JStr "");
    stripped ← Py.strip_hyphens sg_id;
    let resource_name := "SecurityGroup" +:+ stripped in
    permissions ← Py.get sg "IpPermissions" (JList []);
    rules ← Py.iter permissions;
    ingress_rules ← rule_loop rules [];
    description ← Py.get sg "Description" (JStr "Imported security group");
    name ← Py.get sg "GroupName" sg_id;
    Ok (Some (resource_name,
      JObj {[ "Type" := JStr "AWS::EC2::SecurityGroup";
              "Properties" := JObj {[
                "GroupDescription" := description;
                "SecurityGroupIngress" := JList ingress_rules;
                "Tags" := JList [
                  JObj {[ "Key" := JStr "Name";
                          "Value" := JStr ("Imported-" +:+ format name) ]} ] ]} ]})).

(** [resources[resource_name] = descriptor], or nothing after [continue]. *)
Definition store (entry : option (string * json)) (resources : gmap string json)
  : gmap string json :=
  match entry with
  | Some (resource_name, descriptor) => <[resource_name := descriptor]> resources
  | None => resources
  end.

Fixpoint sg_loop (sgs : list json) (resources : gmap string json)
  : result (gmap string json) :=
  match sgs with
  | [] => Ok resources
  | sg :: rest =>
      entry ← sg_entry sg;
      sg_loop rest (store entry resources)
  end.

Definition convert_security_groups_to_cf (sg_data : json) : result (gmap string json) :=
  present ← Py.contains "SecurityGroups" sg_data;
  if present : bool then
    sgs ← Py.getitem sg_data "SecurityGroups";
    records ← Py.iter sgs;
    sg_loop records ∅
  else Ok ∅.

(** *** [convert_ec2_to_cf] *)

(** The comprehension [[sg['GroupId'] for sg in ...]]. *)
Fixpoint group_ids (refs : list json) : result (list json) :=
  match refs with
  | [] => Ok []
  | sg :: rest =>
      group_id ← Py.getitem sg "GroupId";
      ids ← group_ids rest;
      Ok (group_id :: ids)
  end.

(** The body of the inner loop: the key and descriptor of one instance. *)
Definition ec2_entry (instance : json) : result (string * json) :=
  instance_id ← Py.get instance "InstanceId" (JStr "");
  stripped ← Py.strip_hyphens instance_id;
  let resource_name := "EC2Instance" +:+ stripped in
  image_id ← Py.get instance "ImageId" (JStr "ami-0abcdef1234567890");
  instance_type ← Py.get instance "InstanceType" (JStr "t2.micro");
  key_name ← Py.get instance "KeyName" (JStr "");
  security_groups ← Py.get instance "SecurityGroups" (JList []);
  refs ← Py.iter security_groups;
  ids ← group_ids refs;
  subnet_id ← Py.get instance "SubnetId" (JStr "");
  Ok (resource_name,
      JObj {[ "Type" := JStr "AWS::EC2::Instance";
              "Properties" := JObj {[
                "ImageId" := image_id;
                "InstanceType" := instance_type;
                "KeyName" := key_name;
                "SecurityGroupIds" := JList ids;
                "SubnetId" := subnet_id;
                "Tags" := JList [
                  JObj {[ "Key" := JStr "Name";
                          "Value" := JStr ("Imported-" +:+ format instance_id) ]} ] ]} ]}).

Fixpoint instance_loop (instances : list json) (resources : gmap string json)
  : result (gmap string json) :=
  match instances with
  | [] => Ok resources
  | instance :: rest =>
      '(resource_name, descriptor) ← ec2_entry instance;
      instance_loop rest (<[resource_name := descriptor]> resources)
  end.

Fixpoint reservation_loop (reservations : list json) (resources : gmap string json)
  : result (gmap string json) :=
  match reservations with
  | [] => Ok resources
  | reservation :: rest =>
      instances ← Py.get reservation "Instances" (JList []);
      records ← Py.iter instances;
      resources' ← instance_loop records resources;
      reservation_loop rest resources'
  end.

Definition convert_ec2_to_cf (ec2_data : json) : result (gmap string json) :=
  present ← Py.contains "Reservations" ec2_data;
  if present : bool then
    reservations ← Py.getitem ec2_data "Reservations";
    records ← Py.iter reservations;
    reservation_loop records ∅
  else Ok ∅.

(** *** The console and the file system *)

Context {rt : Runtime}.

Record world : Type := World {
  disk : fs;
  stdout : list string;
}.

(** A statement of the script: it runs in a world, leaves a world, and
    returns or raises. *)
Definition io (A : Type) : Type := world → result A * world.

#[global] Instance io_ret : MRet io := λ A a w, (Ok a, w).
#[global] Instance io_bind : MBind io := λ A B f m w,
  match m w with
  | (Ok a, w') => f a w'
  | (Raise e, w') => (Raise e, w')
  end.

Definition print (line : string) : io unit :=
  λ w, (Ok (), {| disk := disk w; stdout := stdout w ++ [line] |}).

Definition raise {A} (e : exn) : io A := λ w, (Raise e, w).

Definition lift {A} (r : result A) : io A := λ w, (r, w).

(** [with open(p, 'r') as f: ... f.read()] *)
Definition read_file (p : string) : io string :=
  λ w, (open_read (disk w) p, w).

(** [with open(p, 'w') as f: f.write(text)]: the file is opened, which
    truncates it, and then written; an exception of the second step
    leaves the disk as the write left it. *)
Definition write_file (p text : string) : io unit :=
  λ w, match open_w (disk w) p with
       | Ok d1 =>
           let '(r, d2) := write_text d1 p text in
           (r, {| disk := d2; stdout := stdout w |})
       | Raise e => (Raise e, w)
       end.

Definition exists_ (p : string) : io bool :=
  λ w, (Ok (path_exists (disk w) p), w).

(** [try: body except ...]: [handler e] is the clause that catches [e],
    if there is one. *)
Definition try_except {A} (body : io A) (handler : exn → option (io A)) : io A :=
  λ w, match body w with
       | (Ok a, w') => (Ok a, w')
       | (Raise e, w') =>
           match handler e with
           | Some clause => clause w'
           | None => (Raise e, w')
           end
       end.

(** *** [load_json_file] *)

Definition load_json_file (file_path : string) : io json :=
  try_except
    (text ← read_file file_path; lift (json_load text))
    (λ e, match e with
          | FileNotFoundError =>
              Some (print ("Warning: " +:+ file_path +:+ " not found");;
                    mret (JObj ∅))
          | JSONDecodeError =>
              Some (print ("Error: Invalid JSON in " +:+ file_path);;
                    mret (JObj ∅))
          | _ => None
          end).

(** *** [main] *)

(** [d.update(other)]: the entries of [other] are stored into [d]. *)
Definition update (d other : gmap string json) : gmap string json := other ∪ d.

(** The template around a [Resources] mapping. *)
Definition cf_template (resources : gmap string json) : json :=
  JObj {[ "AWSTemplateFormatVersion" := JStr "2010-09-09";
          "Description" := JStr "Imported AWS Infrastructure";
          "Resources" := JObj resources ]}.

(** [main], on [sys.argv].  The script builds [cf_template] with an empty
    [Resources] dict and updates that dict in place; here the dict is
    threaded as [resources] and wrapped at the end. *)
Definition main (argv : list string) : io unit :=
  match argv with
  | [_; arg] =>
      let export_dir := Path arg in
      found ← exists_ export_dir;
      if negb found then
        print ("Error: Export directory " +:+ export_dir +:+ " does not exist");;
        raise (SystemExit 1)
      else
        print ("Converting exports from " +:+ export_dir +:+ " to CloudFormation...");;
        vpcs_data ← load_json_file (joinpath export_dir "vpcs.json");
        sg_data ← load_json_file (joinpath export_dir "security-groups.json");
        ec2_data ← load_json_file (joinpath export_dir "ec2-instances.json");
        let resources : gmap string json := ∅ in
        vpcs ← lift (convert_vpc_to_cf vpcs_data);
        let resources := update resources vpcs in
        sgs ← lift (convert_security_groups_to_cf sg_data);
        let resources := update resources sgs in
        instances ← lift (convert_ec2_to_cf ec2_data);
        let resources := update resources instances in
        let output_file := joinpath export_dir "cloudformation-template.json" in
        write_file output_file (json_dump (cf_template resources));;
        print ("CloudFormation template created: " +:+ output_file);;
        print ("Resources converted: " +:+ pretty (size resources))
  | _ =>
      print "Usage: python3 cloudformation_converter.py <export_directory>";;
      raise (SystemExit 1)
  end.

(** The exit status of the process: 0 when [main] returns, the argument of
    [sys.exit], and 1 after an uncaught exception. *)
Definition exit_status (r : result unit) : Z :=
  match r with
  | Ok _ => 0
  | Raise (SystemExit code) => code
  | Raise _ => 1
  end.

Definition run (argv : list string) (w : world) : Z * world :=
  let '(r, w') := main argv w in (exit_status r, w').

(** ** Vocabulary of the properties *)

(** The native identifier of a network record: its [VpcId], when the
    record is a dict and the field holds a string. *)
Definition vpc_native_id (vpc : json) : option string :=
  match field "VpcId" vpc with
  | Some (JStr id) => Some id
  | _ => None
  end.

(** ["VPC"] followed by the identifier without its hyphens. *)
Definition vpc_key (id : string) : string := "VPC" +:+ Py.replace "-" "" id.

(** Two records that are dicts and agree on every field outside [fields]. *)
Definition differ_only_in (fields : gset string) (x y : json) : Prop :=
  ∃ m1 m2 : gmap string json,
    x = JObj m1 ∧ y = JObj m2 ∧ ∀ k, k ∉ fields → m1 !! k = m2 !! k.

(** Both DNS flags of a descriptor's properties are [True]. *)
Definition dns_flags_enabled (descriptor : json) : Prop :=
  ∃ props, field "Properties" descriptor = Some props ∧
    field "EnableDnsHostnames" props = Some (JBool true) ∧
    field "EnableDnsSupport" props = Some (JBool true).

(** A security-group record named exactly ["default"]. *)
Definition is_default_group (sg : json) : bool :=
  match field "GroupName" sg with
  | Some name => Py.eq_str name "default"
  | None => false
  end.

(** A permission rule whose list of address ranges is absent or empty. *)
Definition no_ranges (rule : json) : Prop :=
  ∃ m : gmap string json, rule = JObj m ∧
    (m !! "IpRanges" = None ∨ m !! "IpRanges" = Some (JList [])).

(** The [SecurityGroupIngress] list of a descriptor. *)
Definition ingress_of (descriptor : json) : option json :=
  props ← field "Properties" descriptor;
  field "SecurityGroupIngress" props.

(** The value of the tag whose key is ["Name"]. *)
Definition name_tag (descriptor : json) : option json :=
  props ← field "Properties" descriptor;
  tags ← field "Tags" props;
  match tags with
  | JList ts =>
      tag ← List.find (λ t, match field "Key" t with
                            | Some key => Py.eq_str key "Name"
                            | None => false
                            end) ts;
      field "Value" tag
  | _ => None
  end.

(** The shapes of records on which the converters are total.  Every
    field is optional, except the [GroupId] of a group reference. *)
Definition str_or_absent (key : string) (m : gmap string json) : Prop :=
  m !! key = None ∨ ∃ s, m !! key = Some (JStr s).

Definition list_or_absent (key : string) (P : json → Prop)
    (m : gmap string json) : Prop :=
  m !! key = None ∨ ∃ l, m !! key = Some (JList l) ∧ Forall P l.

Definition is_dict (x : json) : Prop := ∃ m : gmap string json, x = JObj m.

Definition vpc_shape (vpc : json) : Prop :=
  ∃ m, vpc = JObj m ∧ str_or_absent "VpcId" m.

Definition rule_shape (rule : json) : Prop :=
  ∃ m, rule = JObj m ∧ list_or_absent "IpRanges" is_dict m.

Definition sg_shape (sg : json) : Prop :=
  ∃ m, sg = JObj m ∧ str_or_absent "GroupId" m ∧
       list_or_absent "IpPermissions" rule_shape m.

Definition group_ref_shape (ref : json) : Prop :=
  ∃ m : gmap string json, ref = JObj m ∧ is_Some (m !! "GroupId").

Definition instance_shape (instance : json) : Prop :=
  ∃ m, instance = JObj m ∧ str_or_absent "InstanceId" m ∧
       list_or_absent "SecurityGroups" group_ref_shape m.

Definition reservation_shape (reservation : json) : Prop :=
  ∃ m, reservation = JObj m ∧ list_or_absent "Instances" instance_shape m.

(** A group reference without the field [GroupId]. *)
Definition lacks_group_id (ref : json) : Prop :=
  ∃ m : gmap string json, ref = JObj m ∧ m !! "GroupId" = None.

(** A string without hyphens, and a key made of [prefix] and of an
    identifier without hyphens. *)
Definition hyphen_free (s : string) : Prop :=
  "-"%char ∉ String.list_ascii_of_string s.

Definition key_of (prefix k : string) : Prop :=
  ∃ rest, k = prefix +:+ rest ∧ hyphen_free rest.

(** The ingress entries of one permission rule, as a comprehension over
    its address ranges, and the number of those ranges. *)
Definition rule_entries (rule : json) : list json :=
  match rule with
  | JObj m =>
      let cf_rule : gmap string json :=
        {[ "IpProtocol" := default (JStr "tcp") (m !! "IpProtocol");
           "FromPort" := default (JInt 80) (m !! "FromPort");
           "ToPort" := default (JInt 80) (m !! "ToPort") ]} in
      match m !! "IpRanges" with
      | Some (JList ranges) =>
          (λ ip_range,
             JObj (<["CidrIp" := default (JStr "0.0.0.0/0") (field "CidrIp" ip_range)]>
                     cf_rule)) <$> ranges
      | _ => []
      end
  | _ => []
  end.

Definition range_count (rule : json) : nat :=
  match field "IpRanges" rule with
  | Some (JList ranges) => length ranges
  | _ => 0
  end.

(** The instance records of one reservation. *)
Definition instances_of (reservation : json) : list json :=
  match field "Instances" reservation with
  | Some (JList instances) => instances
  | _ => []
  end.

(** A reservation that is a dict whose [Instances], if any, is a list. *)
Definition holds_instance_list (reservation : json) : Prop :=
  ∃ m, reservation = JObj m ∧ list_or_absent "Instances" (λ _, True) m.

(** The native identifiers of instances and of security groups, and the
    keys derived from them. *)
Definition instance_native_id (instance : json) : option string :=
  match field "InstanceId" instance with
  | Some (JStr id) => Some id
  | _ => None
  end.

Definition ec2_key (id : string) : string :=
  "EC2Instance" +:+ Py.replace "-" "" id.

Definition sg_native_id (sg : json) : option string :=
  match field "GroupId" sg with
  | Some (JStr id) => Some id
  | _ => None
  end.

Definition sg_key (id : string) : string :=
  "SecurityGroup" +:+ Py.replace "-" "" id.

(** A descriptor of type [type] with exactly one tag, [Name], whose value
    starts with ["Imported-"]. *)
Definition well_tagged (type : string) (descriptor : json) : Prop :=
  field "Type" descriptor = Some (JStr type) ∧
  ∃ props name,
    field "Properties" descriptor = Some props ∧
    field "Tags" props
    = Some (JList [ JObj {[ "Key" := JStr "Name";
                            "Value" := JStr ("Imported-" +:+ name) ]} ]).

(** [None], a [bool] or a number: a value that is not a container. *)
Definition not_a_container (x : json) : bool :=
  match x with
  | JNull | JBool _ | JInt _ | JFloat _ => true
  | _ => false
  end.

(** How a converter treats an export without usable records under its
    top-level [key]. *)
Definition degenerate_exports (convert : json → result (gmap string json))
    (key : string) : Prop :=
  (∀ m : gmap string json, m !! key = None → convert (JObj m) = Ok ∅) ∧
  (∀ m : gmap string json, m !! key = Some (JList []) → convert (JObj m) = Ok ∅) ∧
  (∀ x, not_a_container x = true → convert x = Raise TypeError) ∧
  (∀ (m : gmap string json) x,
     m !! key = Some x → not_a_container x = true →
     convert (JObj m) = Raise TypeError) ∧
  (∀ m records : gmap string json,
     m !! key = Some (JObj records) → records ≠ ∅ →
     convert (JObj m) = Raise AttributeError).

(** [r] raises nothing but the exceptions of [allowed]. *)
Definition raises_only {A} (allowed : list exn) (r : result A) : Prop :=
  ∀ e, r = Raise e → e ∈ allowed.

(** What the loader does on a disk [d], whatever the console holds: the
    value it returns or the exception it lets through, and the lines it
    prints. *)
Definition loaded (d : fs) (file_path : string) : result json * list string :=
  match text ← open_read d file_path; json_load text with
  | Ok v => (Ok v, [])
  | Raise FileNotFoundError =>
      (Ok (JObj ∅), ["Warning: " +:+ file_path +:+ " not found"])
  | Raise JSONDecodeError =>
      (Ok (JObj ∅), ["Error: Invalid JSON in " +:+ file_path])
  | Raise e => (Raise e, [])
  end.

(** ** Properties *)

(** *** Strings *)

Lemma replace_hyphen_filter (s : string) :
  String.list_ascii_of_string (Py.replace "-" "" s)
  = filter (λ c, c ≠ "-"%char) (String.list_ascii_of_string s).
Proof.
  induction s as [|c s IH]; [done|].
  cbn [Py.replace String.list_ascii_of_string].
  destruct (Ascii.eqb_spec c "-") as [->|Hc].
  - rewrite filter_cons_False by naive_solver. exact IH.
  - rewrite filter_cons_True by done.
    cbn [String.list_ascii_of_string]. by rewrite IH.
Qed.

(** *** The network converter *)

Lemma vpc_entry_named (i : nat) (m : gmap string json) (id : string) :
  m !! "VpcId" = Some (JStr id) →
  ∃ d, vpc_entry i (JObj m) = Ok ("VPC" +:+ Py.replace "-" "" id, d).
Proof.
  intros Hid. unfold vpc_entry. cbn. rewrite Hid. cbn. eauto.
Qed.

Lemma string_app_assoc (s1 s2 s3 : string) :
  (s1 +:+ s2) +:+ s3 = s1 +:+ (s2 +:+ s3).
Proof.
  induction s1 as [|c s1 IH]; [done|].
  change (String c s1 +:+ s2) with (String c (s1 +:+ s2)).
  change (String c (s1 +:+ s2) +:+ s3) with (String c ((s1 +:+ s2) +:+ s3)).
  by rewrite IH.
Qed.

Lemma replace_app (old : ascii) (new s1 s2 : string) :
  Py.replace old new (s1 +:+ s2) = Py.replace old new s1 +:+ Py.replace old new s2.
Proof.
  induction s1 as [|c s1 IH]; [done|].
  change (String c s1 +:+ s2) with (String c (s1 +:+ s2)).
  cbn [Py.replace]. rewrite IH. destruct (Ascii.eqb c old); [|done].
  by rewrite string_app_assoc.
Qed.

Lemma replace_hyphen_pretty_N_go (x : N) (s : string) :
  Py.replace "-" "" (pretty_N_go x s) = pretty_N_go x (Py.replace "-" "" s).
Proof.
  revert s. induction (N.lt_wf_0 x) as [x _ IH]; intros s.
  destruct (decide (x = 0%N)) as [->|Hx].
  - by rewrite !pretty_N_go_0.
  - rewrite (pretty_N_go_step x s), (pretty_N_go_step x (Py.replace _ _ s)) by lia.
    rewrite IH by (apply N.div_lt; lia).
    f_equal. cbn [Py.replace].
    unfold pretty_N_char. by repeat case_match.
Qed.

Lemma replace_hyphen_pretty_nat (i : nat) :
  Py.replace "-" "" (pretty i) = pretty i.
Proof.
  unfold pretty, pretty_nat, pretty, pretty_N.
  case_decide; [done|]. by rewrite replace_hyphen_pretty_N_go.
Qed.

Lemma vpc_entry_unnamed (i : nat) (m : gmap string json) :
  m !! "VpcId" = None →
  ∃ d, vpc_entry i (JObj m) = Ok ("VPCVPC" +:+ pretty i, d).
Proof.
  intros Hid. unfold vpc_entry. cbn. rewrite Hid. cbn.
  rewrite replace_app, replace_hyphen_pretty_nat. eauto.
Qed.

(** C2.  The record set with the one network record
    [{"CidrBlock": "192.168.0.0/16", "VpcId": "vpc-abc123"}] converts to
    exactly one entry, keyed ["VPCvpcabc123"], of type [AWS::EC2::VPC],
    with that address block, both DNS flags true and the single tag
    [Name = "Imported-vpc-abc123"]. *)
Theorem convert_vpc_minimal_record :
  convert_vpc_to_cf
    (JObj {[ "Vpcs" := JList [ JObj {[ "CidrBlock" := JStr "192.168.0.0/16";
                                         "VpcId" := JStr "vpc-abc123" ]} ] ]})
  = Ok {[ "VPCvpcabc123" :=
      JObj {[ "Type" := JStr "AWS::EC2::VPC";
              "Properties" := JObj {[
                "CidrBlock" := JStr "192.168.0.0/16";
                "EnableDnsHostnames" := JBool true;
                "EnableDnsSupport" := JBool true;
                "Tags" := JList [
                  JObj {[ "Key" := JStr "Name";
                          "Value" := JStr "Imported-vpc-abc123" ]} ] ]} ]} ]}.
Proof. vm_compute. reflexivity. Qed.

Lemma vpc_loop_app (pre post : list json) :
  ∀ i resources,
  vpc_loop i (pre ++ post) resources
  = resources' ← vpc_loop i pre resources; vpc_loop (i + length pre) post resources'.
Proof.
  induction pre as [|vpc pre IH]; intros i resources.
  - cbn. by rewrite Nat.add_0_r.
  - cbn [app vpc_loop length].
    destruct (vpc_entry i vpc) as [[k d]|e]; cbn; [|done].
    rewrite IH. by replace (S i + length pre) with (i + S (length pre)) by lia.
Qed.

Lemma vpc_loop_untouched (k : string) (vpcs : list json) :
  ∀ i (resources resources' : gmap string json),
  (∀ j y d, vpcs !! j = Some y → vpc_entry (i + j) y ≠ Ok (k, d)) →
  vpc_loop i vpcs resources = Ok resources' →
  resources' !! k = resources !! k.
Proof.
  induction vpcs as [|vpc vpcs IH]; intros i resources resources' Hother.
  - by intros [= <-].
  - cbn [vpc_loop]. destruct (vpc_entry i vpc) as [[k' d']|e] eqn:Hentry; [|done].
    cbn. intros Hloop.
    assert (∀ j y d, vpcs !! j = Some y → vpc_entry (S i + j) y ≠ Ok (k, d)) as Hrest.
    { intros j y d Hy. replace (S i + j) with (i + S j) by lia.
      by apply (Hother (S j)). }
    rewrite (IH (S i) _ _ Hrest Hloop).
    apply lookup_insert_ne. intros <-.
    apply (Hother 0 vpc d' eq_refl). by rewrite Nat.add_0_r.
Qed.

Lemma vpc_loop_keeps (k : string) (vpcs : list json) :
  ∀ i (resources resources' : gmap string json),
  vpc_loop i vpcs resources = Ok resources' →
  is_Some (resources !! k) → is_Some (resources' !! k).
Proof.
  induction vpcs as [|vpc vpcs IH]; intros i resources resources'.
  - by intros [= <-].
  - cbn [vpc_loop]. destruct (vpc_entry i vpc) as [[k' d']|e]; [|done].
    cbn. intros Hloop Hk. apply (IH _ _ _ Hloop).
    rewrite lookup_insert_is_Some. destruct (decide (k' = k)); auto.
Qed.

(** What the converter's result holds for the record at one position of
    the list: the record's key is there, and under it the record's
    descriptor unless a later record derives the same key. *)
Lemma vpc_record_stored (m : gmap string json) (pre post : list json) (x : json)
    (resources : gmap string json) :
  m !! "Vpcs" = Some (JList (pre ++ x :: post)) →
  convert_vpc_to_cf (JObj m) = Ok resources →
  ∃ k d,
    vpc_entry (length pre) x = Ok (k, d) ∧
    is_Some (resources !! k) ∧
    ((∀ j y d', post !! j = Some y → vpc_entry (S (length pre) + j) y ≠ Ok (k, d')) →
     resources !! k = Some d).
Proof.
  intros Hm. unfold convert_vpc_to_cf. cbn. rewrite Hm. cbn.
  rewrite vpc_loop_app. destruct (vpc_loop 0 pre ∅) as [resources1|e]; [|done].
  cbn. destruct (vpc_entry (length pre) x) as [[k d]|e]; [|done]. cbn.
  intros Hloop. exists k, d. split; [done|split].
  - apply (vpc_loop_keeps k _ _ _ _ Hloop). rewrite lookup_insert_eq. eauto.
  - intros Hpost.
    rewrite (vpc_loop_untouched k post (S (length pre)) _ _ Hpost Hloop).
    apply lookup_insert_eq.
Qed.

(** C5, as the code has it.  The converter stores an entry for the record
    at each position [i] of the list (positions count from 0).  For a
    record without [VpcId] its key is ["VPCVPC" + i]: the fallback
    identifier ["VPC" + i] is itself put behind the prefix ["VPC"].  For a
    record whose [VpcId] is a string its key is ["VPC"] followed by that
    string without its hyphens.  The entry under the key is the record's
    own unless a later record derives the same key. *)
Theorem vpc_key_derivation (m : gmap string json) (pre post : list json)
    (record : gmap string json) (resources : gmap string json) :
  m !! "Vpcs" = Some (JList (pre ++ JObj record :: post)) →
  convert_vpc_to_cf (JObj m) = Ok resources →
  ∃ key d,
    vpc_entry (length pre) (JObj record) = Ok (key, d) ∧
    is_Some (resources !! key) ∧
    ((∀ j y d', post !! j = Some y →
        vpc_entry (S (length pre) + j) y ≠ Ok (key, d')) →
     resources !! key = Some d) ∧
    (record !! "VpcId" = None → key = "VPCVPC" +:+ pretty (length pre)) ∧
    (∀ id, record !! "VpcId" = Some (JStr id) →
       key = "VPC" +:+ Py.replace "-" "" id ∧
       String.list_ascii_of_string (Py.replace "-" "" id)
       = filter (λ c, c ≠ "-"%char) (String.list_ascii_of_string id)).
Proof.
  intros Hm Hconv.
  destruct (vpc_record_stored m pre post (JObj record) resources Hm Hconv)
    as (key & d & Hentry & Hsome & Hstored).
  exists key, d. do 3 (split; [done|]). split.
  - intros Hid. destruct (vpc_entry_unnamed (length pre) record Hid) as [d' Hd'].
    rewrite Hd' in Hentry. by injection Hentry as <- _.
  - intros id Hid. destruct (vpc_entry_named (length pre) record id Hid) as [d' Hd'].
    rewrite Hd' in Hentry. split; [by injection Hentry as <- _|].
    apply replace_hyphen_filter.
Qed.

Lemma vpc_loop_dom (vpcs : list json) (ids : list string) :
  Forall2 (λ vpc id, vpc_native_id vpc = Some id) vpcs ids →
  ∀ i (resources : gmap string json),
  ∃ resources', vpc_loop i vpcs resources = Ok resources' ∧
    dom resources' = dom resources ∪ list_to_set (vpc_key <$> ids).
Proof.
  intros Hids. induction Hids as [|vpc id vpcs ids Hid _ IH]; intros i resources.
  - exists resources. split; [done|]. cbn. set_solver.
  - unfold vpc_native_id, field in Hid.
    destruct vpc as [| | | | |?|m]; try done.
    destruct (m !! "VpcId") as [[]|] eqn:Hm; try done.
    injection Hid as ->.
    destruct (vpc_entry_named i m id Hm) as [d Hd].
    cbn [vpc_loop]. rewrite Hd. cbn.
    destruct (IH (S i) (<[vpc_key id := d]> resources)) as (res' & Hloop & Hdom).
    exists res'. split; [exact Hloop|].
    rewrite Hdom, dom_insert_L. set_solver.
Qed.

(** C6.  When every network record is a dict whose [VpcId] is a string and
    the derived keys are pairwise distinct, the converter returns as many
    entries as there are records, and its keys are exactly ["VPC"] followed
    by each record's identifier without hyphens. *)
Theorem vpc_count_and_keys (m : gmap string json) (vpcs : list json)
    (ids : list string) :
  m !! "Vpcs" = Some (JList vpcs) →
  Forall2 (λ vpc id, vpc_native_id vpc = Some id) vpcs ids →
  NoDup (vpc_key <$> ids) →
  ∃ resources,
    convert_vpc_to_cf (JObj m) = Ok resources ∧
    size resources = length vpcs ∧
    ∀ k, is_Some (resources !! k) ↔ k ∈ vpc_key <$> ids.
Proof.
  intros Hm Hids Hnodup.
  destruct (vpc_loop_dom vpcs ids Hids 0 ∅) as (res & Hloop & Hdom).
  exists res. split; [|split].
  - unfold convert_vpc_to_cf. cbn. rewrite Hm. cbn. exact Hloop.
  - rewrite <-size_dom, Hdom, dom_empty_L, (left_id_L ∅ (∪)).
    rewrite size_list_to_set by done.
    rewrite length_fmap. symmetry. by eapply Forall2_length.
  - intros k. rewrite <-elem_of_dom, Hdom. set_solver.
Qed.

Lemma vpc_entry_differ (dns : gset string) (i : nat) (x y : json) :
  "VpcId" ∉ dns → "CidrBlock" ∉ dns →
  differ_only_in dns x y → vpc_entry i x = vpc_entry i y.
Proof.
  intros Hid Hcidr (m1 & m2 & -> & -> & Hagree).
  unfold vpc_entry. cbn.
  by rewrite (Hagree _ Hid), (Hagree _ Hcidr).
Qed.

Lemma vpc_loop_differ (dns : gset string) (xs ys : list json) :
  "VpcId" ∉ dns → "CidrBlock" ∉ dns →
  Forall2 (differ_only_in dns) xs ys →
  ∀ i resources, vpc_loop i xs resources = vpc_loop i ys resources.
Proof.
  intros Hid Hcidr Hdiff.
  induction Hdiff as [|x y xs ys Hxy _ IH]; intros i resources; [done|].
  cbn [vpc_loop]. rewrite (vpc_entry_differ dns i x y) by done.
  destruct (vpc_entry i y) as [[k d]|e]; cbn; [apply IH|done].
Qed.

Lemma vpc_entry_dns_flags (i : nat) (vpc : json) (k : string) (d : json) :
  vpc_entry i vpc = Ok (k, d) → dns_flags_enabled d.
Proof.
  unfold vpc_entry. destruct vpc as [| | | | |?|m]; try done. cbn.
  destruct (Py.strip_hyphens _) as [stripped|e]; [|done]. cbn.
  intros [= <- <-]. eexists. split; [reflexivity|]. by split.
Qed.

Lemma vpc_loop_dns_flags (vpcs : list json) :
  ∀ i (resources resources' : gmap string json),
  map_Forall (λ _ d, dns_flags_enabled d) resources →
  vpc_loop i vpcs resources = Ok resources' →
  map_Forall (λ _ d, dns_flags_enabled d) resources'.
Proof.
  induction vpcs as [|vpc vpcs IH]; intros i resources resources' Hres.
  - by intros [= <-].
  - cbn [vpc_loop]. destruct (vpc_entry i vpc) as [[k d]|e] eqn:Hentry; [|done].
    cbn. apply IH, map_Forall_insert_2; [|done].
    by eapply vpc_entry_dns_flags.
Qed.

Lemma convert_vpc_inv (vpcs_data : json) (resources : gmap string json) :
  convert_vpc_to_cf vpcs_data = Ok resources →
  resources = ∅ ∨ ∃ records, vpc_loop 0 records ∅ = Ok resources.
Proof.
  unfold convert_vpc_to_cf.
  destruct (Py.contains "Vpcs" vpcs_data) as [[]|e]; cbn; [|naive_solver..].
  destruct (Py.getitem vpcs_data "Vpcs") as [vpcs|e]; cbn; [|done].
  destruct (Py.iter vpcs) as [records|e]; cbn; [|done]. eauto.
Qed.

(** C8.  Whatever set [dns] of field names counts as DNS-related (it holds
    neither [VpcId] nor [CidrBlock]), two record lists that differ only in
    those fields convert to the same result, and every entry the network
    converter produces has [EnableDnsHostnames] and [EnableDnsSupport]
    set to [True]. *)
Theorem vpc_ignores_dns_fields (dns : gset string) :
  "VpcId" ∉ dns → "CidrBlock" ∉ dns →
  (∀ (m : gmap string json) vpcs1 vpcs2,
     Forall2 (differ_only_in dns) vpcs1 vpcs2 →
     convert_vpc_to_cf (JObj (<["Vpcs" := JList vpcs1]> m))
     = convert_vpc_to_cf (JObj (<["Vpcs" := JList vpcs2]> m))) ∧
  (∀ vpcs_data (resources : gmap string json) k d,
     convert_vpc_to_cf vpcs_data = Ok resources →
     resources !! k = Some d → dns_flags_enabled d).
Proof.
  intros Hid Hcidr. split.
  - intros m vpcs1 vpcs2 Hdiff. unfold convert_vpc_to_cf. cbn.
    rewrite !lookup_insert_eq. cbn. by eapply vpc_loop_differ.
  - intros vpcs_data resources k d Hconv Hk.
    destruct (convert_vpc_inv _ _ Hconv) as [->|[records Hloop]]; [done|].
    eapply (vpc_loop_dns_flags records 0 ∅ resources); [|done..].
    apply map_Forall_empty.
Qed.

(** *** The access-control converter *)

Lemma sg_entry_default (sg : json) :
  is_default_group sg = true → sg_entry sg = Ok None.
Proof.
  unfold is_default_group, field, sg_entry.
  destruct sg as [| | | | |?|m]; try done. cbn.
  destruct (m !! "GroupName") as [name|]; [|done]. cbn.
  by intros ->.
Qed.

Lemma sg_entry_stored (sg : json) (k : string) (d : json) :
  sg_entry sg = Ok (Some (k, d)) → is_default_group sg = false.
Proof.
  destruct (is_default_group sg) eqn:Hdefault; [|done].
  by rewrite (sg_entry_default sg Hdefault).
Qed.

Lemma sg_loop_filter (sgs : list json) :
  ∀ resources,
  sg_loop (filter (λ sg, ¬ is_default_group sg) sgs) resources
  = sg_loop sgs resources.
Proof.
  induction sgs as [|sg sgs IH]; intros resources; [done|].
  destruct (is_default_group sg) eqn:Hdefault.
  - rewrite filter_cons_False by (rewrite Hdefault; naive_solver).
    cbn [sg_loop]. rewrite (sg_entry_default sg Hdefault). cbn. apply IH.
  - rewrite filter_cons_True by (rewrite Hdefault; naive_solver).
    cbn [sg_loop]. destruct (sg_entry sg) as [entry|e]; cbn; [apply IH|done].
Qed.

Lemma sg_loop_keys (sgs : list json) :
  ∀ (resources resources' : gmap string json) k,
  sg_loop sgs resources = Ok resources' →
  is_Some (resources' !! k) →
  is_Some (resources !! k) ∨
  ∃ sg d, sg ∈ sgs ∧ is_default_group sg = false ∧ sg_entry sg = Ok (Some (k, d)).
Proof.
  induction sgs as [|sg sgs IH]; intros resources resources' k.
  - intros [= <-]. by left.
  - cbn [sg_loop]. destruct (sg_entry sg) as [entry|e] eqn:Hentry; [|done]. cbn.
    intros Hloop Hk. destruct (IH _ _ _ Hloop Hk) as [Hin|(sg' & d & ? & ? & ?)].
    + destruct entry as [[k' d']|]; cbn in Hin; [|by left].
      destruct (decide (k' = k)) as [->|Hne].
      * right. exists sg, d'. split; [by left|].
        split; [by eapply sg_entry_stored|done].
      * left. by rewrite lookup_insert_ne in Hin.
    + right. exists sg', d. split; [by right|done].
Qed.

(** C1.  The records named ["default"] contribute nothing: the converter
    returns on any record list exactly what it returns once those records are
    taken out, and every key of its result is the key stored for a record
    that is not named ["default"]. *)
Theorem default_groups_contribute_nothing (m : gmap string json) (sgs : list json) :
  convert_security_groups_to_cf (JObj (<["SecurityGroups" := JList sgs]> m))
  = convert_security_groups_to_cf
      (JObj (<["SecurityGroups" := JList (filter (λ sg, ¬ is_default_group sg) sgs)]> m)) ∧
  ∀ (resources : gmap string json) k,
    convert_security_groups_to_cf (JObj (<["SecurityGroups" := JList sgs]> m)) = Ok resources →
    is_Some (resources !! k) →
    ∃ sg d, sg ∈ sgs ∧ is_default_group sg = false ∧ sg_entry sg = Ok (Some (k, d)).
Proof.
  unfold convert_security_groups_to_cf. cbn. rewrite !lookup_insert_eq. cbn.
  split.
  - by rewrite sg_loop_filter.
  - intros resources k Hloop Hk.
    destruct (sg_loop_keys _ _ _ _ Hloop Hk) as [Hin|?]; [|done].
    rewrite lookup_empty in Hin. by destruct Hin.
Qed.

Lemma rule_step_no_ranges (rule : json) (ingress_rules : list json) :
  no_ranges rule → rule_step rule ingress_rules = Ok ingress_rules.
Proof.
  intros (m & -> & [Hm|Hm]); unfold rule_step; cbn; by rewrite Hm.
Qed.

Lemma rule_loop_app (pre post : list json) :
  ∀ ingress_rules,
  rule_loop (pre ++ post) ingress_rules
  = ingress_rules' ← rule_loop pre ingress_rules; rule_loop post ingress_rules'.
Proof.
  induction pre as [|rule pre IH]; intros ingress_rules; [done|].
  cbn [app rule_loop].
  destruct (rule_step rule ingress_rules) as [ingress_rules'|e]; cbn; [apply IH|done].
Qed.

Lemma rule_loop_drop (rule : json) (pre post ingress_rules : list json) :
  no_ranges rule →
  rule_loop (pre ++ rule :: post) ingress_rules
  = rule_loop (pre ++ post) ingress_rules.
Proof.
  intros Hrule. rewrite !rule_loop_app.
  destruct (rule_loop pre ingress_rules) as [ingress_rules'|e]; cbn; [|done].
  by rewrite rule_step_no_ranges.
Qed.

(** C3.  A permission rule whose [IpRanges] is absent or the empty list adds
    nothing to [ingress_rules]: its turn of the loop leaves the list as it
    was, so the flattened list, and with it the entry of the security
    group, is the one obtained without the rule. *)
Theorem rule_without_ranges_dropped (rule : json) :
  no_ranges rule →
  (∀ ingress_rules, rule_step rule ingress_rules = Ok ingress_rules) ∧
  (∀ pre post ingress_rules,
     rule_loop (pre ++ rule :: post) ingress_rules
     = rule_loop (pre ++ post) ingress_rules) ∧
  (∀ (sg : gmap string json) pre post,
     sg_entry (JObj (<["IpPermissions" := JList (pre ++ rule :: post)]> sg))
     = sg_entry (JObj (<["IpPermissions" := JList (pre ++ post)]> sg))).
Proof.
  intros Hrule. split; [|split].
  - intros. by apply rule_step_no_ranges.
  - intros. by apply rule_loop_drop.
  - intros sg pre post. unfold sg_entry. cbn.
    rewrite !lookup_insert_eq, !lookup_insert_ne by done. cbn.
    by rewrite rule_loop_drop.
Qed.

Lemma sg_entry_ingress (sg : json) (k : string) (d : json) :
  sg_entry sg = Ok (Some (k, d)) →
  ∃ permissions rules ingress_rules,
    Py.get sg "IpPermissions" (JList []) = Ok permissions ∧
    Py.iter permissions = Ok rules ∧
    rule_loop rules [] = Ok ingress_rules ∧
    ingress_of d = Some (JList ingress_rules).
Proof.
  unfold sg_entry. destruct sg as [| | | | |?|m]; try done. cbn.
  destruct (Py.eq_str _ _); [done|].
  destruct (Py.strip_hyphens _) as [stripped|e]; [|done]. cbn.
  destruct (Py.iter _) as [rules|e] eqn:Hiter; [|done]. cbn.
  destruct (rule_loop rules []) as [ingress_rules|e] eqn:Hloop; [|done]. cbn.
  intros [= <- <-].
  exists (default (JList []) (m !! "IpPermissions")), rules, ingress_rules.
  repeat split; [exact Hiter|exact Hloop].
Qed.

Lemma sg_loop_app (pre post : list json) :
  ∀ resources,
  sg_loop (pre ++ post) resources
  = resources' ← sg_loop pre resources; sg_loop post resources'.
Proof.
  induction pre as [|sg pre IH]; intros resources; [done|].
  cbn [app sg_loop]. destruct (sg_entry sg) as [entry|e]; cbn; [apply IH|done].
Qed.

Lemma sg_loop_untouched (k : string) (sgs : list json) :
  ∀ (resources resources' : gmap string json),
  (∀ sg d, sg ∈ sgs → sg_entry sg ≠ Ok (Some (k, d))) →
  sg_loop sgs resources = Ok resources' →
  resources' !! k = resources !! k.
Proof.
  induction sgs as [|sg sgs IH]; intros resources resources' Hother.
  - by intros [= <-].
  - cbn [sg_loop]. destruct (sg_entry sg) as [entry|e] eqn:Hentry; [|done].
    cbn. intros Hloop. rewrite (IH _ _ (λ sg' d' Hin, Hother sg' d' (list_elem_of_further _ _ _ Hin)) Hloop).
    destruct entry as [[k' d']|]; [|done]. cbn.
    apply lookup_insert_ne. intros <-.
    by apply (Hother sg d' (list_elem_of_here _ _)).
Qed.

Lemma sg_loop_keeps (k : string) (sgs : list json) :
  ∀ (resources resources' : gmap string json),
  sg_loop sgs resources = Ok resources' →
  is_Some (resources !! k) → is_Some (resources' !! k).
Proof.
  induction sgs as [|sg sgs IH]; intros resources resources'.
  - by intros [= <-].
  - cbn [sg_loop]. destruct (sg_entry sg) as [[[k' d']|]|e]; [| |done]; cbn.
    + intros Hloop Hk. apply (IH _ _ Hloop).
      rewrite lookup_insert_is_Some. destruct (decide (k' = k)); auto.
    + apply IH.
Qed.

(** What the converter's result holds for the security group at one
    position of the list: when the loop body stores an entry for it, its
    key is there, and under it the group's descriptor unless a later group
    derives the same key. *)
Lemma sg_record_stored (m : gmap string json) (pre post : list json) (sg : json)
    (resources : gmap string json) :
  m !! "SecurityGroups" = Some (JList (pre ++ sg :: post)) →
  convert_security_groups_to_cf (JObj m) = Ok resources →
  ∃ entry,
    sg_entry sg = Ok entry ∧
    ∀ k d, entry = Some (k, d) →
      is_Some (resources !! k) ∧
      ((∀ sg' d', sg' ∈ post → sg_entry sg' ≠ Ok (Some (k, d'))) →
       resources !! k = Some d).
Proof.
  intros Hm. unfold convert_security_groups_to_cf. cbn. rewrite Hm. cbn.
  rewrite sg_loop_app. destruct (sg_loop pre ∅) as [resources1|e]; [|done].
  cbn. destruct (sg_entry sg) as [entry|e]; [|done]. cbn.
  intros Hloop. exists entry. split; [done|]. intros k d ->. cbn in Hloop. split.
  - apply (sg_loop_keeps k _ _ _ Hloop). rewrite lookup_insert_eq. eauto.
  - intros Hpost. rewrite (sg_loop_untouched k post _ _ Hpost Hloop).
    apply lookup_insert_eq.
Qed.

(** The entry the loop body stores for a group that is not named
    ["default"]: its key comes from [GroupId], which is then a string. *)
Lemma sg_entry_kept (sg : gmap string json) (entry : option (string * json)) :
  is_default_group (JObj sg) = false →
  sg_entry (JObj sg) = Ok entry →
  ∃ id d, default (JStr "") (sg !! "GroupId") = JStr id ∧ entry = Some (sg_key id, d).
Proof.
  unfold is_default_group, field, sg_entry. intros Hdefault. cbn.
  assert (Py.eq_str (default JNull (sg !! "GroupName")) "default" = false) as ->.
  { by destruct (sg !! "GroupName"). }
  destruct (default (JStr "") (sg !! "GroupId")) as [| | | |id| |]; try done. cbn.
  destruct (Py.iter _) as [rules|e]; [|done]. cbn.
  destruct (rule_loop rules []) as [ingress_rules|e]; [|done]. cbn.
  intros [= <-]. by eexists _, _.
Qed.

Lemma range_loop_prepend (cf_rule : gmap string json) (ranges : list json) :
  ∀ before ingress_rules,
  range_loop cf_rule ranges (before ++ ingress_rules)
  = r ← range_loop cf_rule ranges ingress_rules; Ok (before ++ r).
Proof.
  induction ranges as [|ip_range ranges IH]; intros before ingress_rules; [done|].
  cbn [range_loop].
  destruct (Py.get ip_range "CidrIp" (JStr "0.0.0.0/0")) as [cidr|e]; cbn; [|done].
  rewrite <-app_assoc. apply IH.
Qed.

Lemma rule_loop_prepend (rules : list json) :
  ∀ before ingress_rules,
  rule_loop rules (before ++ ingress_rules)
  = r ← rule_loop rules ingress_rules; Ok (before ++ r).
Proof.
  induction rules as [|rule rules IH]; intros before ingress_rules; [done|].
  cbn [rule_loop].
  assert (rule_step rule (before ++ ingress_rules)
          = r ← rule_step rule ingress_rules; Ok (before ++ r)) as ->.
  { unfold rule_step. destruct rule as [| | | | |?|rm]; try done. cbn.
    destruct (Py.iter _) as [ranges|e]; [|done]. cbn. apply range_loop_prepend. }
  destruct (rule_step rule ingress_rules) as [ingress_rules'|e]; cbn; [apply IH|done].
Qed.

(** The turn of the loop for the rule of C4. *)
Lemma ssh_rule_step (rule r1 r2 : gmap string json) (ingress_rules : list json) :
  rule !! "IpProtocol" = Some (JStr "tcp") →
  rule !! "FromPort" = Some (JInt 22) →
  rule !! "ToPort" = Some (JInt 22) →
  rule !! "IpRanges" = Some (JList [JObj r1; JObj r2]) →
  r1 !! "CidrIp" = Some (JStr "10.0.0.0/8") →
  r2 !! "CidrIp" = Some (JStr "0.0.0.0/0") →
  rule_step (JObj rule) ingress_rules
  = Ok (ingress_rules ++
        [ JObj (<["CidrIp" := JStr "10.0.0.0/8"]>
                  {[ "IpProtocol" := JStr "tcp"; "FromPort" := JInt 22;
                     "ToPort" := JInt 22 ]});
          JObj (<["CidrIp" := JStr "0.0.0.0/0"]>
                  {[ "IpProtocol" := JStr "tcp"; "FromPort" := JInt 22;
                     "ToPort" := JInt 22 ]}) ]).
Proof.
  intros Hproto Hfrom Hto Hranges Hr1 Hr2. unfold rule_step. cbn.
  rewrite Hproto, Hfrom, Hto, Hranges. cbn. rewrite Hr1, Hr2. cbn.
  by rewrite <-app_assoc.
Qed.

(** C4.  Take a security group, not named ["default"], at any place of
    the export, and among its rules one with protocol ["tcp"], ports 22 to
    22 and the two address ranges ["10.0.0.0/8"] and ["0.0.0.0/0"].  When
    the access-control converter returns, its result has the group's key,
    and the group's descriptor (the entry under that key unless a later
    group derives the same key) lists for the rule exactly two ingress
    entries, in the order of the ranges, between those of the rules before
    it and those of the rules after it: both are the protocol and port
    triple, with [CidrIp] set to the one range and to the other. *)
Theorem ssh_rule_two_entries (m sg rule r1 r2 : gmap string json)
    (pre post rules_before rules_after : list json)
    (resources : gmap string json) :
  rule !! "IpProtocol" = Some (JStr "tcp") →
  rule !! "FromPort" = Some (JInt 22) →
  rule !! "ToPort" = Some (JInt 22) →
  rule !! "IpRanges" = Some (JList [JObj r1; JObj r2]) →
  r1 !! "CidrIp" = Some (JStr "10.0.0.0/8") →
  r2 !! "CidrIp" = Some (JStr "0.0.0.0/0") →
  m !! "SecurityGroups" = Some (JList (pre ++ JObj sg :: post)) →
  sg !! "IpPermissions" = Some (JList (rules_before ++ JObj rule :: rules_after)) →
  is_default_group (JObj sg) = false →
  convert_security_groups_to_cf (JObj m) = Ok resources →
  let triple : gmap string json :=
    {[ "IpProtocol" := JStr "tcp"; "FromPort" := JInt 22; "ToPort" := JInt 22 ]} in
  let entries :=
    [ JObj (<["CidrIp" := JStr "10.0.0.0/8"]> triple);
      JObj (<["CidrIp" := JStr "0.0.0.0/0"]> triple) ] in
  ∃ id d before after,
    default (JStr "") (sg !! "GroupId") = JStr id ∧
    is_Some (resources !! sg_key id) ∧
    ((∀ sg' d', sg' ∈ post → sg_entry sg' ≠ Ok (Some (sg_key id, d'))) →
     resources !! sg_key id = Some d) ∧
    sg_entry (JObj sg) = Ok (Some (sg_key id, d)) ∧
    rule_loop rules_before [] = Ok before ∧
    rule_loop rules_after [] = Ok after ∧
    ingress_of d = Some (JList (before ++ entries ++ after)).
Proof.
  intros Hproto Hfrom Hto Hranges Hr1 Hr2 Hm Hsg Hdefault Hconv triple entries.
  destruct (sg_record_stored m pre post (JObj sg) resources Hm Hconv)
    as (entry & Hentry & Hstored).
  destruct (sg_entry_kept sg entry Hdefault Hentry) as (id & d & Hid & ->).
  destruct (Hstored _ _ eq_refl) as [Hsome Hlast].
  destruct (sg_entry_ingress _ _ _ Hentry)
    as (ps & rules & ingress & Hps & Hiter & Hloop & Hingress).
  cbn in Hps. rewrite Hsg in Hps. injection Hps as <-.
  cbn in Hiter. injection Hiter as <-.
  rewrite rule_loop_app in Hloop.
  destruct (rule_loop rules_before []) as [before|e] eqn:Hbefore; [|done].
  cbn [mbind result_bind rule_loop] in Hloop.
  rewrite (ssh_rule_step rule r1 r2 before) in Hloop by done.
  cbn [mbind result_bind] in Hloop.
  rewrite <-(app_nil_r (before ++ _)), rule_loop_prepend in Hloop.
  destruct (rule_loop rules_after []) as [after|e] eqn:Hafter; [|done].
  cbn in Hloop. injection Hloop as <-.
  exists id, d, before, after. do 6 (split; [done|]).
  by rewrite Hingress, <-app_assoc.
Qed.

(** *** Group references without [GroupId] *)

Lemma group_ids_raise (refs : list json) (ref : json) :
  ref ∈ refs → lacks_group_id ref → is_Raise (group_ids refs).
Proof.
  intros Hin (r & -> & Hr). induction refs as [|x refs IH]; [by inversion Hin|].
  cbn [group_ids]. destruct (Py.getitem x "GroupId") as [v|e] eqn:Hx; [|by eexists].
  cbn. apply elem_of_cons in Hin as [<-|Hin].
  - cbn in Hx. by rewrite Hr in Hx.
  - destruct (IH Hin) as [e ->]. by eexists.
Qed.

Lemma ec2_entry_raise (im : gmap string json) (refs : list json) (ref : json) :
  im !! "SecurityGroups" = Some (JList refs) →
  ref ∈ refs → lacks_group_id ref → is_Raise (ec2_entry (JObj im)).
Proof.
  intros Him Hin Href. unfold ec2_entry. cbn.
  destruct (Py.strip_hyphens _) as [stripped|e]; [|by eexists]. cbn.
  rewrite Him. cbn.
  destruct (group_ids_raise refs ref Hin Href) as [e ->]. by eexists.
Qed.

Lemma instance_loop_raise (instances : list json) (instance : json) :
  instance ∈ instances → is_Raise (ec2_entry instance) →
  ∀ resources, is_Raise (instance_loop instances resources).
Proof.
  intros Hin [e He]. induction instances as [|x instances IH]; [by inversion Hin|].
  intros resources. cbn [instance_loop].
  destruct (ec2_entry x) as [[k d]|e'] eqn:Hx; [|by eexists].
  cbn. apply elem_of_cons in Hin as [<-|Hin]; [congruence|by apply IH].
Qed.

Lemma reservation_loop_raise (reservations instances : list json)
    (rm : gmap string json) (instance : json) :
  JObj rm ∈ reservations → rm !! "Instances" = Some (JList instances) →
  instance ∈ instances → is_Raise (ec2_entry instance) →
  ∀ resources, is_Raise (reservation_loop reservations resources).
Proof.
  intros Hin Hrm Hinst Hraise.
  induction reservations as [|x reservations IH]; [by inversion Hin|].
  intros resources. cbn [reservation_loop].
  apply elem_of_cons in Hin as [<-|Hin].
  - cbn. rewrite Hrm. cbn.
    destruct (instance_loop_raise instances instance Hinst Hraise resources) as [e ->].
    by eexists.
  - destruct (Py.get x "Instances" (JList [])) as [v|e]; [|by eexists]. cbn.
    destruct (Py.iter v) as [records|e]; [|by eexists]. cbn.
    destruct (instance_loop records resources) as [resources'|e]; [|by eexists].
    cbn. by apply IH.
Qed.

(** *** Exports on which the converters return *)

Lemma group_ids_ok (refs : list json) :
  Forall group_ref_shape refs → is_Ok (group_ids refs).
Proof.
  induction 1 as [|ref refs (m & -> & [v Hv]) _ [ids IH]]; [by eexists|].
  cbn. rewrite Hv. cbn. rewrite IH. by eexists.
Qed.

Lemma ec2_entry_ok (instance : json) :
  instance_shape instance → is_Ok (ec2_entry instance).
Proof.
  intros (m & -> & Hid & Hrefs). unfold ec2_entry. cbn.
  assert (is_Ok (Py.strip_hyphens (default (JStr "") (m !! "InstanceId")))) as [stripped ->].
  { destruct Hid as [->|[id ->]]; by eexists. }
  cbn.
  assert (is_Ok (refs ← Py.iter (default (JList []) (m !! "SecurityGroups"));
                 group_ids refs)) as [ids Hids].
  { destruct Hrefs as [->|(refs & -> & Hrefs)]; [by eexists|].
    cbn. by apply group_ids_ok. }
  destruct (Py.iter _) as [refs|e]; [|done]. cbn in *. rewrite Hids. by eexists.
Qed.

Lemma instance_loop_ok (instances : list json) :
  Forall instance_shape instances →
  ∀ resources, is_Ok (instance_loop instances resources).
Proof.
  induction 1 as [|instance instances Hinst _ IH]; intros resources; [by eexists|].
  cbn [instance_loop]. destruct (ec2_entry_ok instance Hinst) as [[k d] ->].
  cbn. apply IH.
Qed.

Lemma reservation_loop_ok (reservations : list json) :
  Forall reservation_shape reservations →
  ∀ resources, is_Ok (reservation_loop reservations resources).
Proof.
  induction 1 as [|reservation reservations (m & -> & Hm) _ IH];
    intros resources; [by eexists|].
  cbn [reservation_loop]. cbn.
  destruct Hm as [->|(instances & -> & Hinst)]; cbn; [apply IH|].
  destruct (instance_loop_ok instances Hinst resources) as [resources' ->].
  cbn. apply IH.
Qed.

Lemma vpc_loop_ok (vpcs : list json) :
  Forall vpc_shape vpcs → ∀ i resources, is_Ok (vpc_loop i vpcs resources).
Proof.
  induction 1 as [|vpc vpcs (m & -> & Hm) _ IH]; intros i resources; [by eexists|].
  cbn [vpc_loop].
  assert (∃ k d, vpc_entry i (JObj m) = Ok (k, d)) as (k & d & ->).
  { destruct Hm as [Hm|[id Hm]].
    - destruct (vpc_entry_unnamed i m Hm) as [d Hd]. eauto.
    - destruct (vpc_entry_named i m id Hm) as [d Hd]. eauto. }
  cbn. apply IH.
Qed.

Lemma range_loop_ok (cf_rule : gmap string json) (ranges : list json) :
  Forall is_dict ranges →
  ∀ ingress_rules, is_Ok (range_loop cf_rule ranges ingress_rules).
Proof.
  induction 1 as [|ip_range ranges [m ->] _ IH]; intros ingress_rules; [by eexists|].
  cbn. apply IH.
Qed.

Lemma rule_loop_ok (rules : list json) :
  Forall rule_shape rules →
  ∀ ingress_rules, is_Ok (rule_loop rules ingress_rules).
Proof.
  induction 1 as [|rule rules (m & -> & Hm) _ IH]; intros ingress_rules; [by eexists|].
  cbn [rule_loop]. unfold rule_step. cbn.
  destruct Hm as [->|(ranges & -> & Hranges)]; cbn; [apply IH|].
  match goal with
  | |- context [range_loop ?cf_rule ranges ingress_rules] =>
      destruct (range_loop_ok cf_rule ranges Hranges ingress_rules)
        as [ingress_rules' ->]
  end.
  cbn. apply IH.
Qed.

Lemma sg_entry_ok (sg : json) : sg_shape sg → is_Ok (sg_entry sg).
Proof.
  intros (m & -> & Hid & Hrules). unfold sg_entry. cbn.
  destruct (Py.eq_str _ _); [by eexists|].
  assert (is_Ok (Py.strip_hyphens (default (JStr "") (m !! "GroupId")))) as [stripped ->].
  { destruct Hid as [->|[id ->]]; by eexists. }
  cbn.
  assert (is_Ok (rules ← Py.iter (default (JList []) (m !! "IpPermissions"));
                 rule_loop rules [])) as [ingress_rules Hingress].
  { destruct Hrules as [->|(rules & -> & Hrules)]; [by eexists|].
    cbn. by apply rule_loop_ok. }
  destruct (Py.iter _) as [rules|e]; [|done]. cbn in *. rewrite Hingress. by eexists.
Qed.

Lemma sg_loop_ok (sgs : list json) :
  Forall sg_shape sgs → ∀ resources, is_Ok (sg_loop sgs resources).
Proof.
  induction 1 as [|sg sgs Hsg _ IH]; intros resources; [by eexists|].
  cbn [sg_loop]. destruct (sg_entry_ok sg Hsg) as [entry ->]. cbn. apply IH.
Qed.

(** *** The name tag of a security group *)

Lemma sg_entry_some (sg : json) :
  sg_shape sg → is_default_group sg = false →
  ∃ k d, sg_entry sg = Ok (Some (k, d)).
Proof.
  intros (m & -> & Hid & Hrules). unfold is_default_group, sg_entry. cbn.
  intros Hdefault.
  assert (Py.eq_str (default JNull (m !! "GroupName")) "default" = false) as ->.
  { by destruct (m !! "GroupName"). }
  assert (is_Ok (Py.strip_hyphens (default (JStr "") (m !! "GroupId")))) as [stripped ->].
  { destruct Hid as [->|[id ->]]; by eexists. }
  cbn.
  assert (is_Ok (rules ← Py.iter (default (JList []) (m !! "IpPermissions"));
                 rule_loop rules [])) as [ingress_rules Hingress].
  { destruct Hrules as [->|(rules & -> & Hrules)]; [by eexists|].
    cbn. by apply rule_loop_ok. }
  destruct (Py.iter _) as [rules|e]; [|done]. cbn in *. rewrite Hingress. cbn. eauto.
Qed.

(** The name tag of the entry the loop body stores for a group. *)
Lemma sg_entry_name_tag (sg : json) (k : string) (d : json) :
  sg_entry sg = Ok (Some (k, d)) →
  (∀ name, field "GroupName" sg = Some name →
     name_tag d = Some (JStr ("Imported-" +:+ format name))) ∧
  (field "GroupName" sg = None →
     ∃ id, default (JStr "") (field "GroupId" sg) = JStr id ∧
           name_tag d = Some (JStr ("Imported-" +:+ id))).
Proof.
  unfold sg_entry. destruct sg as [| | | | |?|m]; try done. cbn.
  destruct (Py.eq_str _ _) eqn:Hdefault; [done|].
  destruct (Py.strip_hyphens _) as [stripped|e] eqn:Hstrip; [|done]. cbn.
  destruct (Py.iter _) as [rules|e]; [|done]. cbn.
  destruct (rule_loop rules []) as [ingress_rules|e]; [|done]. cbn.
  intros [= <- <-]. split.
  - intros name Hm. rewrite Hm. reflexivity.
  - intros Hm. rewrite Hm in *. cbn in *.
    destruct (default (JStr "") (m !! "GroupId")) as [| | | |id| |]; try done.
    by exists id.
Qed.

(** C9.  Take a security group that is not named ["default"], at any
    place of the export.  When the access-control converter returns, its
    result has the group's key, and in the group's descriptor (the entry
    under that key unless a later group derives the same key) the tag
    [Name] is ["Imported-"] followed by the group's [GroupName] when it has
    one, and by its [GroupId] when it has none (the empty string when that
    is absent too).  A [GroupName] that is a string is taken as it is;
    [None], a bool and an int are printed as Python prints them. *)
Theorem sg_name_tag (m sg : gmap string json) (pre post : list json)
    (resources : gmap string json) :
  m !! "SecurityGroups" = Some (JList (pre ++ JObj sg :: post)) →
  is_default_group (JObj sg) = false →
  convert_security_groups_to_cf (JObj m) = Ok resources →
  ∃ id d,
    default (JStr "") (sg !! "GroupId") = JStr id ∧
    is_Some (resources !! sg_key id) ∧
    ((∀ sg' d', sg' ∈ post → sg_entry sg' ≠ Ok (Some (sg_key id, d'))) →
     resources !! sg_key id = Some d) ∧
    sg_entry (JObj sg) = Ok (Some (sg_key id, d)) ∧
    (∀ name, sg !! "GroupName" = Some (JStr name) →
       name ≠ "default" ∧ name_tag d = Some (JStr ("Imported-" +:+ name))) ∧
    (sg !! "GroupName" = None →
       name_tag d = Some (JStr ("Imported-" +:+ id))) ∧
    (sg !! "GroupName" = Some JNull →
       name_tag d = Some (JStr "Imported-None")) ∧
    (∀ b : bool, sg !! "GroupName" = Some (JBool b) →
       name_tag d = Some (JStr (if b then "Imported-True" else "Imported-False"))) ∧
    (∀ z, sg !! "GroupName" = Some (JInt z) →
       name_tag d = Some (JStr ("Imported-" +:+ pretty z))) ∧
    (∀ name, sg !! "GroupName" = Some name →
       name_tag d = Some (JStr ("Imported-" +:+ format name))).
Proof.
  intros Hm Hdefault Hconv.
  destruct (sg_record_stored m pre post (JObj sg) resources Hm Hconv)
    as (entry & Hentry & Hstored).
  destruct (sg_entry_kept sg entry Hdefault Hentry) as (id & d & Hid & ->).
  destruct (Hstored _ _ eq_refl) as [Hsome Hlast].
  destruct (sg_entry_name_tag _ _ _ Hentry) as [Hname Hnone]. cbn in Hname, Hnone.
  exists id, d. do 4 (split; [done|]).
  split; [|split; [|split; [|split; [|split]]]].
  - intros name Hsg. split; [|by apply (Hname (JStr name))].
    unfold is_default_group in Hdefault. cbn in Hdefault. rewrite Hsg in Hdefault.
    by apply bool_decide_eq_false in Hdefault.
  - intros Hsg. destruct (Hnone Hsg) as (id' & Hid' & ->).
    rewrite Hid in Hid'. by injection Hid' as <-.
  - intros Hsg. by apply (Hname JNull).
  - intros b Hsg. rewrite (Hname (JBool b) Hsg). by destruct b.
  - intros z Hsg. by apply (Hname (JInt z)).
  - exact Hname.
Qed.

(** *** The unguarded subscript of the compute converter *)

(** C10.  The compute converter subscripts [GroupId] without a guard:
    whenever some instance holds a group reference without that field the
    conversion raises (a [KeyError], on the smallest such input) instead of
    returning.  It returns on every export whose records have the shape
    above, where that field is the only one required; so do the other two
    converters, with no field required at all. *)
Theorem ec2_group_id_unguarded :
  (∀ (m rm im : gmap string json) reservations instances refs ref,
     m !! "Reservations" = Some (JList reservations) →
     JObj rm ∈ reservations →
     rm !! "Instances" = Some (JList instances) →
     JObj im ∈ instances →
     im !! "SecurityGroups" = Some (JList refs) →
     ref ∈ refs → lacks_group_id ref →
     is_Raise (convert_ec2_to_cf (JObj m))) ∧
  convert_ec2_to_cf
    (JObj {[ "Reservations" := JList [
       JObj {[ "Instances" := JList [
         JObj {[ "SecurityGroups" := JList [JObj ∅] ]} ] ]} ] ]})
  = Raise KeyError ∧
  (∀ (m : gmap string json) reservations,
     m !! "Reservations" = Some (JList reservations) →
     Forall reservation_shape reservations →
     is_Ok (convert_ec2_to_cf (JObj m))) ∧
  (∀ (m : gmap string json) vpcs,
     m !! "Vpcs" = Some (JList vpcs) → Forall vpc_shape vpcs →
     is_Ok (convert_vpc_to_cf (JObj m))) ∧
  (∀ (m : gmap string json) sgs,
     m !! "SecurityGroups" = Some (JList sgs) → Forall sg_shape sgs →
     is_Ok (convert_security_groups_to_cf (JObj m))).
Proof.
  split; [|split; [|split; [|split]]].
  - intros m rm im reservations instances refs ref Hm Hrm Hinsts Him Hrefs Href Hlacks.
    unfold convert_ec2_to_cf. cbn. rewrite Hm. cbn.
    eapply reservation_loop_raise; [done..|].
    by eapply ec2_entry_raise.
  - vm_compute. reflexivity.
  - intros m reservations Hm Hshape.
    unfold convert_ec2_to_cf. cbn. rewrite Hm. cbn.
    by apply reservation_loop_ok.
  - intros m vpcs Hm Hshape.
    unfold convert_vpc_to_cf. cbn. rewrite Hm. cbn. by apply vpc_loop_ok.
  - intros m sgs Hm Hshape.
    unfold convert_security_groups_to_cf. cbn. rewrite Hm. cbn. by apply sg_loop_ok.
Qed.

(** *** The loader and the entry point *)

(** Run the first statement of a sequence of [io] statements. *)
Ltac io_step := unfold mbind at 1, io_bind at 1.

Lemma update_empty (d : gmap string json) : update d ∅ = d.
Proof. unfold update. by rewrite (left_id_L ∅ (∪)). Qed.

Lemma convert_vpc_empty : convert_vpc_to_cf (JObj ∅) = Ok ∅.
Proof. reflexivity. Qed.

Lemma convert_sg_empty : convert_security_groups_to_cf (JObj ∅) = Ok ∅.
Proof. reflexivity. Qed.

Lemma convert_ec2_empty : convert_ec2_to_cf (JObj ∅) = Ok ∅.
Proof. reflexivity. Qed.

Lemma write_file_returns (p text : string) (w : world) (d' : fs) :
  open_write (disk w) p text = Ok d' →
  write_file p text w = (Ok (), {| disk := d'; stdout := stdout w |}).
Proof.
  unfold open_write, write_file. destruct (open_w (disk w) p) as [d1|e]; [|done].
  cbn. destruct (write_text d1 p text) as [[[]|e] d2]; [|done]. by intros [= ->].
Qed.

Lemma load_json_file_absent (file_path : string) (w : world) :
  open_read (disk w) file_path = Raise FileNotFoundError →
  load_json_file file_path w
  = (Ok (JObj ∅),
     {| disk := disk w;
        stdout := stdout w ++ ["Warning: " +:+ file_path +:+ " not found"] |}).
Proof.
  intros Hread. unfold load_json_file, try_except, read_file.
  unfold mbind, io_bind. by rewrite Hread.
Qed.

(** X1.  A file that is there but does not parse gives the empty dict and
    an error line, and the run goes on; the file system is left as it was. *)
Lemma load_json_file_invalid (file_path text : string) (w : world) :
  open_read (disk w) file_path = Ok text →
  json_load text = Raise JSONDecodeError →
  load_json_file file_path w
  = (Ok (JObj ∅),
     {| disk := disk w;
        stdout := stdout w ++ ["Error: Invalid JSON in " +:+ file_path] |}).
Proof.
  intros Hread Hload. unfold load_json_file, try_except, read_file.
  io_step. rewrite Hread. unfold lift. by rewrite Hload.
Qed.

(** C7.  When [open] finds no file at a path, the loader prints a warning
    and returns the empty dict.  When the export directory exists, none of
    the three export files does and the template can be written, the run
    ends with status 0 and has written the template whose [Resources] is
    the empty dict, with the fixed [AWSTemplateFormatVersion] and
    [Description]. *)
Theorem missing_exports_give_empty_template :
  (∀ file_path w,
     open_read (disk w) file_path = Raise FileNotFoundError →
     load_json_file file_path w
     = (Ok (JObj ∅),
        {| disk := disk w;
           stdout := stdout w ++ ["Warning: " +:+ file_path +:+ " not found"] |})) ∧
  (∀ prog arg w d',
     let export_dir := Path arg in
     let output_file := joinpath export_dir "cloudformation-template.json" in
     path_exists (disk w) export_dir = true →
     open_read (disk w) (joinpath export_dir "vpcs.json") = Raise FileNotFoundError →
     open_read (disk w) (joinpath export_dir "security-groups.json")
       = Raise FileNotFoundError →
     open_read (disk w) (joinpath export_dir "ec2-instances.json")
       = Raise FileNotFoundError →
     open_write (disk w) output_file (json_dump (cf_template ∅)) = Ok d' →
     run [prog; arg] w
     = (0%Z,
        {| disk := d';
           stdout := stdout w ++
             [ "Converting exports from " +:+ export_dir +:+ " to CloudFormation...";
               "Warning: " +:+ joinpath export_dir "vpcs.json" +:+ " not found";
               "Warning: " +:+ joinpath export_dir "security-groups.json" +:+ " not found";
               "Warning: " +:+ joinpath export_dir "ec2-instances.json" +:+ " not found";
               "CloudFormation template created: " +:+ output_file;
               "Resources converted: 0" ] |})) ∧
  cf_template ∅
  = JObj {[ "AWSTemplateFormatVersion" := JStr "2010-09-09";
            "Description" := JStr "Imported AWS Infrastructure";
            "Resources" := JObj ∅ ]}.
Proof.
  split; [exact load_json_file_absent|split; [|done]].
  intros prog arg w d' export_dir output_file Hdir Hvpcs Hsgs Hec2 Hwrite.
  unfold run, main. fold export_dir.
  unfold exists_. io_step. rewrite Hdir. cbn [negb].
  io_step. cbn [print].
  do 3 (io_step; rewrite load_json_file_absent by done).
  cbn [disk stdout].
  unfold mbind, io_bind, lift, print.
  rewrite convert_vpc_empty, convert_sg_empty, convert_ec2_empty.
  rewrite !update_empty. fold output_file.
  erewrite write_file_returns by exact Hwrite. cbn [disk stdout exit_status].
  by rewrite <-!app_assoc.
Qed.

(** *** The exceptions of the converters *)

Lemma raises_only_ok {A} (allowed : list exn) (a : A) : raises_only allowed (Ok a).
Proof. by intros e. Qed.

Lemma raises_only_bind {A B} (allowed : list exn) (r : result A) (k : A → result B) :
  raises_only allowed r → (∀ a, raises_only allowed (k a)) →
  raises_only allowed (r ≫= k).
Proof.
  intros Hr Hk e. destruct r as [a|e']; cbn; [apply Hk|].
  intros [= ->]. by apply Hr.
Qed.

Lemma raises_only_get (allowed : list exn) (x : json) (key : string) (dflt : json) :
  AttributeError ∈ allowed → raises_only allowed (Py.get x key dflt).
Proof. intros Hin e. destruct x; cbn; by intros [= <-]. Qed.

Lemma raises_only_strip_hyphens (allowed : list exn) (x : json) :
  AttributeError ∈ allowed → raises_only allowed (Py.strip_hyphens x).
Proof. intros Hin e. destruct x; cbn; by intros [= <-]. Qed.

Lemma raises_only_iter (allowed : list exn) (x : json) :
  TypeError ∈ allowed → raises_only allowed (Py.iter x).
Proof. intros Hin e. destruct x; cbn; by intros [= <-]. Qed.

Lemma raises_only_contains (allowed : list exn) (key : string) (x : json) :
  TypeError ∈ allowed → raises_only allowed (Py.contains key x).
Proof. intros Hin e. destruct x; cbn; by intros [= <-]. Qed.

Lemma raises_only_getitem (allowed : list exn) (x : json) (key : string) :
  TypeError ∈ allowed → KeyError ∈ allowed → raises_only allowed (Py.getitem x key).
Proof.
  intros Htype Hkey e. destruct x as [| | | | | |m]; cbn; try by intros [= <-].
  destruct (m !! key); by intros [= <-].
Qed.

(** After [key in x] has answered [True], [x[key]] does not raise
    [KeyError]. *)
Lemma raises_only_getitem_guarded (allowed : list exn) (x : json) (key : string) :
  Py.contains key x = Ok true → TypeError ∈ allowed →
  raises_only allowed (Py.getitem x key).
Proof.
  intros Hguard Htype e. destruct x as [| | | | | |m]; cbn; try by intros [= <-].
  cbn in Hguard. injection Hguard as Hguard.
  apply bool_decide_eq_true in Hguard as [v ->]. done.
Qed.

Create HintDb raises.
#[local] Hint Resolve raises_only_ok raises_only_get raises_only_strip_hyphens
  raises_only_iter raises_only_contains raises_only_getitem : raises.
#[local] Hint Extern 1 (_ ∈ _) => set_solver : raises.

(** Walk through the statements of a body. *)
Ltac raises_steps :=
  repeat (apply raises_only_bind; [auto with raises|intros]);
  auto with raises.

Lemma vpc_loop_raises (vpcs : list json) :
  ∀ i resources,
  raises_only [TypeError; AttributeError] (vpc_loop i vpcs resources).
Proof.
  induction vpcs as [|vpc vpcs IH]; intros i resources; cbn [vpc_loop]; [auto with raises|].
  apply raises_only_bind; [unfold vpc_entry; raises_steps|].
  intros [k d]. apply IH.
Qed.

Lemma convert_vpc_raises (vpcs_data : json) :
  raises_only [TypeError; AttributeError] (convert_vpc_to_cf vpcs_data).
Proof.
  unfold convert_vpc_to_cf.
  destruct (Py.contains "Vpcs" vpcs_data) as [[]|e] eqn:Hguard; cbn;
    [|auto with raises|].
  - apply raises_only_bind;
      [apply raises_only_getitem_guarded; [done|set_solver]|intros vpcs].
    apply raises_only_bind; [auto with raises|intros records].
    apply vpc_loop_raises.
  - intros e' [= <-]. by eapply raises_only_contains; [|exact Hguard]; set_solver.
Qed.

Lemma range_loop_raises (cf_rule : gmap string json) (ranges : list json) :
  ∀ ingress_rules,
  raises_only [TypeError; AttributeError] (range_loop cf_rule ranges ingress_rules).
Proof.
  induction ranges as [|ip_range ranges IH]; intros ingress_rules; cbn [range_loop];
    [auto with raises|].
  apply raises_only_bind; [auto with raises|intros cidr]. apply IH.
Qed.

Lemma rule_loop_raises (rules : list json) :
  ∀ ingress_rules,
  raises_only [TypeError; AttributeError] (rule_loop rules ingress_rules).
Proof.
  induction rules as [|rule rules IH]; intros ingress_rules; cbn [rule_loop];
    [auto with raises|].
  apply raises_only_bind; [|intros; apply IH].
  unfold rule_step.
  do 5 (apply raises_only_bind; [auto with raises|intros]).
  apply range_loop_raises.
Qed.

Lemma sg_loop_raises (sgs : list json) :
  ∀ resources,
  raises_only [TypeError; AttributeError] (sg_loop sgs resources).
Proof.
  induction sgs as [|sg sgs IH]; intros resources; cbn [sg_loop]; [auto with raises|].
  apply raises_only_bind; [|intros; apply IH].
  unfold sg_entry. apply raises_only_bind; [auto with raises|intros name].
  destruct (Py.eq_str name "default"); [auto with raises|].
  do 4 (apply raises_only_bind; [auto with raises|intros]).
  apply raises_only_bind; [apply rule_loop_raises|intros].
  raises_steps.
Qed.

Lemma convert_sg_raises (sg_data : json) :
  raises_only [TypeError; AttributeError] (convert_security_groups_to_cf sg_data).
Proof.
  unfold convert_security_groups_to_cf.
  destruct (Py.contains "SecurityGroups" sg_data) as [[]|e] eqn:Hguard; cbn;
    [|auto with raises|].
  - apply raises_only_bind;
      [apply raises_only_getitem_guarded; [done|set_solver]|intros sgs].
    apply raises_only_bind; [auto with raises|intros records].
    apply sg_loop_raises.
  - intros e' [= <-]. by eapply raises_only_contains; [|exact Hguard]; set_solver.
Qed.

Lemma group_ids_raises (refs : list json) :
  raises_only [TypeError; AttributeError; KeyError] (group_ids refs).
Proof.
  induction refs as [|ref refs IH]; cbn [group_ids]; [auto with raises|].
  apply raises_only_bind; [auto with raises|intros group_id].
  apply raises_only_bind; [apply IH|intros ids]. auto with raises.
Qed.

Lemma instance_loop_raises (instances : list json) :
  ∀ resources,
  raises_only [TypeError; AttributeError; KeyError] (instance_loop instances resources).
Proof.
  induction instances as [|instance instances IH]; intros resources;
    cbn [instance_loop]; [auto with raises|].
  apply raises_only_bind; [|intros [k d]; apply IH].
  unfold ec2_entry.
  do 7 (apply raises_only_bind; [auto with raises|intros]).
  apply raises_only_bind; [apply group_ids_raises|intros].
  raises_steps.
Qed.

Lemma reservation_loop_raises (reservations : list json) :
  ∀ resources,
  raises_only [TypeError; AttributeError; KeyError]
    (reservation_loop reservations resources).
Proof.
  induction reservations as [|reservation reservations IH]; intros resources;
    cbn [reservation_loop]; [auto with raises|].
  do 2 (apply raises_only_bind; [auto with raises|intros]).
  apply raises_only_bind; [apply instance_loop_raises|intros; apply IH].
Qed.

Lemma convert_ec2_raises (ec2_data : json) :
  raises_only [TypeError; AttributeError; KeyError] (convert_ec2_to_cf ec2_data).
Proof.
  unfold convert_ec2_to_cf.
  destruct (Py.contains "Reservations" ec2_data) as [[]|e] eqn:Hguard; cbn;
    [|auto with raises|].
  - apply raises_only_bind;
      [apply raises_only_getitem_guarded; [done|set_solver]|intros reservations].
    apply raises_only_bind; [auto with raises|intros records].
    apply reservation_loop_raises.
  - intros e' [= <-]. by eapply raises_only_contains; [|exact Hguard]; set_solver.
Qed.

(** X8.  Whatever the export holds, the network and the access-control
    converters raise nothing but [TypeError] and [AttributeError]: the
    subscript of the top-level key is guarded by the membership test, so a
    missing key never gives a [KeyError].  The compute converter can also
    raise [KeyError], and nothing else. *)
Theorem converters_raise_only (data : json) :
  raises_only [TypeError; AttributeError] (convert_vpc_to_cf data) ∧
  raises_only [TypeError; AttributeError] (convert_security_groups_to_cf data) ∧
  raises_only [TypeError; AttributeError; KeyError] (convert_ec2_to_cf data).
Proof.
  split; [apply convert_vpc_raises|].
  split; [apply convert_sg_raises|apply convert_ec2_raises].
Qed.

(** *** The keys of the converters *)

Lemma replace_hyphen_free (s : string) : hyphen_free (Py.replace "-" "" s).
Proof.
  unfold hyphen_free. rewrite replace_hyphen_filter, list_elem_of_filter.
  by intros [? _].
Qed.

Lemma vpc_entry_key (i : nat) (vpc : json) (k : string) (d : json) :
  vpc_entry i vpc = Ok (k, d) → key_of "VPC" k.
Proof.
  unfold vpc_entry. destruct vpc as [| | | | |?|m]; try done. cbn.
  destruct (default _ (m !! "VpcId")) as [| | | |id| |]; try done. cbn.
  intros [= <- _]. eexists. split; [done|apply replace_hyphen_free].
Qed.

Lemma vpc_loop_keys (vpcs : list json) :
  ∀ i (resources resources' : gmap string json),
  map_Forall (λ k _, key_of "VPC" k) resources →
  vpc_loop i vpcs resources = Ok resources' →
  map_Forall (λ k _, key_of "VPC" k) resources'.
Proof.
  induction vpcs as [|vpc vpcs IH]; intros i resources resources' Hres.
  - by intros [= <-].
  - cbn [vpc_loop]. destruct (vpc_entry i vpc) as [[k d]|e] eqn:Hentry; [|done].
    cbn. apply IH, map_Forall_insert_2; [|done]. by eapply vpc_entry_key.
Qed.

Lemma convert_vpc_keys (vpcs_data : json) (resources : gmap string json) :
  convert_vpc_to_cf vpcs_data = Ok resources →
  map_Forall (λ k _, key_of "VPC" k) resources.
Proof.
  intros Hconv. destruct (convert_vpc_inv _ _ Hconv) as [->|[records Hloop]].
  - apply map_Forall_empty.
  - eapply vpc_loop_keys; [|done]. apply map_Forall_empty.
Qed.

Lemma sg_entry_key (sg : json) (k : string) (d : json) :
  sg_entry sg = Ok (Some (k, d)) → key_of "SecurityGroup" k.
Proof.
  unfold sg_entry. destruct sg as [| | | | |?|m]; try done. cbn.
  destruct (Py.eq_str _ _); [done|].
  destruct (default _ (m !! "GroupId")) as [| | | |id| |]; try done. cbn.
  destruct (Py.iter _) as [rules|e]; [|done]. cbn.
  destruct (rule_loop rules []) as [ingress_rules|e]; [|done]. cbn.
  intros [= <- _]. eexists. split; [done|apply replace_hyphen_free].
Qed.

Lemma sg_loop_key_prefix (sgs : list json) :
  ∀ (resources resources' : gmap string json),
  map_Forall (λ k _, key_of "SecurityGroup" k) resources →
  sg_loop sgs resources = Ok resources' →
  map_Forall (λ k _, key_of "SecurityGroup" k) resources'.
Proof.
  induction sgs as [|sg sgs IH]; intros resources resources' Hres.
  - by intros [= <-].
  - cbn [sg_loop]. destruct (sg_entry sg) as [[[k d]|]|e] eqn:Hentry; [| |done]; cbn.
    + apply IH, map_Forall_insert_2; [|done]. by eapply sg_entry_key.
    + by apply IH.
Qed.

Lemma convert_sg_inv (sg_data : json) (resources : gmap string json) :
  convert_security_groups_to_cf sg_data = Ok resources →
  resources = ∅ ∨ ∃ records, sg_loop records ∅ = Ok resources.
Proof.
  unfold convert_security_groups_to_cf.
  destruct (Py.contains "SecurityGroups" sg_data) as [[]|e]; cbn; [|naive_solver..].
  destruct (Py.getitem sg_data "SecurityGroups") as [sgs|e]; cbn; [|done].
  destruct (Py.iter sgs) as [records|e]; cbn; [|done]. eauto.
Qed.

Lemma convert_sg_keys (sg_data : json) (resources : gmap string json) :
  convert_security_groups_to_cf sg_data = Ok resources →
  map_Forall (λ k _, key_of "SecurityGroup" k) resources.
Proof.
  intros Hconv. destruct (convert_sg_inv _ _ Hconv) as [->|[records Hloop]].
  - apply map_Forall_empty.
  - eapply sg_loop_key_prefix; [|done]. apply map_Forall_empty.
Qed.

Lemma ec2_entry_key (instance : json) (k : string) (d : json) :
  ec2_entry instance = Ok (k, d) → key_of "EC2Instance" k.
Proof.
  unfold ec2_entry. destruct instance as [| | | | |?|m]; try done. cbn.
  destruct (default _ (m !! "InstanceId")) as [| | | |id| |]; try done. cbn.
  destruct (Py.iter _) as [refs|e]; [|done]. cbn.
  destruct (group_ids refs) as [ids|e]; [|done]. cbn.
  intros [= <- _]. eexists. split; [done|apply replace_hyphen_free].
Qed.

Lemma instance_loop_keys (instances : list json) :
  ∀ (resources resources' : gmap string json),
  map_Forall (λ k _, key_of "EC2Instance" k) resources →
  instance_loop instances resources = Ok resources' →
  map_Forall (λ k _, key_of "EC2Instance" k) resources'.
Proof.
  induction instances as [|instance instances IH]; intros resources resources' Hres.
  - by intros [= <-].
  - cbn [instance_loop].
    destruct (ec2_entry instance) as [[k d]|e] eqn:Hentry; [|done].
    cbn. apply IH, map_Forall_insert_2; [|done]. by eapply ec2_entry_key.
Qed.

Lemma reservation_loop_keys (reservations : list json) :
  ∀ (resources resources' : gmap string json),
  map_Forall (λ k _, key_of "EC2Instance" k) resources →
  reservation_loop reservations resources = Ok resources' →
  map_Forall (λ k _, key_of "EC2Instance" k) resources'.
Proof.
  induction reservations as [|reservation reservations IH];
    intros resources resources' Hres.
  - by intros [= <-].
  - cbn [reservation_loop].
    destruct (Py.get reservation "Instances" (JList [])) as [v|e]; [|done]. cbn.
    destruct (Py.iter v) as [records|e]; [|done]. cbn.
    destruct (instance_loop records resources) as [resources1|e] eqn:Hloop; [|done].
    cbn. apply IH. by eapply instance_loop_keys.
Qed.

Lemma convert_ec2_inv (ec2_data : json) (resources : gmap string json) :
  convert_ec2_to_cf ec2_data = Ok resources →
  resources = ∅ ∨ ∃ records, reservation_loop records ∅ = Ok resources.
Proof.
  unfold convert_ec2_to_cf.
  destruct (Py.contains "Reservations" ec2_data) as [[]|e]; cbn; [|naive_solver..].
  destruct (Py.getitem ec2_data "Reservations") as [rs|e]; cbn; [|done].
  destruct (Py.iter rs) as [records|e]; cbn; [|done]. eauto.
Qed.

Lemma convert_ec2_keys (ec2_data : json) (resources : gmap string json) :
  convert_ec2_to_cf ec2_data = Ok resources →
  map_Forall (λ k _, key_of "EC2Instance" k) resources.
Proof.
  intros Hconv. destruct (convert_ec2_inv _ _ Hconv) as [->|[records Hloop]].
  - apply map_Forall_empty.
  - eapply reservation_loop_keys; [|done]. apply map_Forall_empty.
Qed.

Lemma key_of_disjoint (p1 p2 : string) (c1 c2 : ascii) (k : string) :
  c1 ≠ c2 → key_of (String c1 p1) k → key_of (String c2 p2) k → False.
Proof.
  intros Hne (rest1 & -> & _) (rest2 & Heq & _).
  change (String c1 (p1 +:+ rest1) = String c2 (p2 +:+ rest2)) in Heq.
  by injection Heq.
Qed.

Lemma keys_disjoint (p1 p2 : string) (c1 c2 : ascii) (r1 r2 : gmap string json) :
  c1 ≠ c2 →
  map_Forall (λ k _, key_of (String c1 p1) k) r1 →
  map_Forall (λ k _, key_of (String c2 p2) k) r2 →
  r1 ##ₘ r2.
Proof.
  intros Hne H1 H2. apply map_disjoint_spec. intros k d1 d2 Hk1 Hk2.
  eapply key_of_disjoint; [exact Hne|by eapply H1|by eapply H2].
Qed.

Ltac keys_apart := eapply keys_disjoint; [|eassumption|eassumption]; done.

Lemma merged_size (r1 r2 r3 : gmap string json) :
  map_Forall (λ k _, key_of "VPC" k) r1 →
  map_Forall (λ k _, key_of "SecurityGroup" k) r2 →
  map_Forall (λ k _, key_of "EC2Instance" k) r3 →
  size (update (update (update ∅ r1) r2) r3) = size r1 + size r2 + size r3.
Proof.
  intros H1 H2 H3. unfold update. rewrite (right_id_L ∅ (∪)).
  rewrite !map_size_disj_union; [lia|keys_apart|].
  apply map_disjoint_union_r. split; keys_apart.
Qed.

(** X9.  Every key of the network converter starts with ["VPC"], every key
    of the access-control converter with ["SecurityGroup"] and every key of
    the compute converter with ["EC2Instance"].  So the three results never
    share a key: merging them loses no entry, and the merged mapping has
    as many entries as the three together. *)
Theorem converter_keys_never_collide (vpcs_data sg_data ec2_data : json)
    (r1 r2 r3 : gmap string json) :
  convert_vpc_to_cf vpcs_data = Ok r1 →
  convert_security_groups_to_cf sg_data = Ok r2 →
  convert_ec2_to_cf ec2_data = Ok r3 →
  (∀ k, is_Some (r1 !! k) → ∃ rest, k = "VPC" +:+ rest) ∧
  (∀ k, is_Some (r2 !! k) → ∃ rest, k = "SecurityGroup" +:+ rest) ∧
  (∀ k, is_Some (r3 !! k) → ∃ rest, k = "EC2Instance" +:+ rest) ∧
  r1 ##ₘ r2 ∧ r1 ##ₘ r3 ∧ r2 ##ₘ r3 ∧
  r1 ⊆ update (update (update ∅ r1) r2) r3 ∧
  r2 ⊆ update (update (update ∅ r1) r2) r3 ∧
  size (update (update (update ∅ r1) r2) r3) = size r1 + size r2 + size r3.
Proof.
  intros H1%convert_vpc_keys H2%convert_sg_keys H3%convert_ec2_keys.
  assert (r1 ##ₘ r2) as H12 by keys_apart.
  assert (r1 ##ₘ r3) as H13 by keys_apart.
  assert (r2 ##ₘ r3) as H23 by keys_apart.
  repeat split; try done.
  - intros k [d Hk]. destruct (H1 k d Hk) as (rest & -> & _). eauto.
  - intros k [d Hk]. destruct (H2 k d Hk) as (rest & -> & _). eauto.
  - intros k [d Hk]. destruct (H3 k d Hk) as (rest & -> & _). eauto.
  - unfold update. rewrite (right_id_L ∅ (∪)).
    etrans; [|apply map_union_subseteq_r; by apply map_disjoint_union_r].
    by apply map_union_subseteq_r.
  - unfold update. rewrite (right_id_L ∅ (∪)).
    etrans; [|apply map_union_subseteq_r; by apply map_disjoint_union_r].
    apply map_union_subseteq_l.
  - by apply merged_size.
Qed.

(** X10.  No key of any converter's result holds a hyphen: the hyphens of
    the identifier are removed and the prefixes have none. *)
Theorem converter_keys_hyphen_free (data : json) (resources : gmap string json)
    (k : string) :
  convert_vpc_to_cf data = Ok resources ∨
  convert_security_groups_to_cf data = Ok resources ∨
  convert_ec2_to_cf data = Ok resources →
  is_Some (resources !! k) → hyphen_free k.
Proof.
  assert (∀ prefix, hyphen_free prefix → key_of prefix k → hyphen_free k) as Hfree.
  { intros prefix Hprefix (rest & -> & Hrest). unfold hyphen_free in *.
    intros Hin. clear -Hprefix Hrest Hin.
    induction prefix as [|c prefix IH]; [done|].
    change (String c prefix +:+ rest) with (String c (prefix +:+ rest)) in Hin.
    cbn [String.list_ascii_of_string] in *.
    apply elem_of_cons in Hin as [<-|Hin].
    - apply Hprefix. by left.
    - apply IH; [|done]. intros ?. apply Hprefix. by right. }
  intros [Hconv|[Hconv|Hconv]] [d Hk].
  - apply (Hfree "VPC"); [by vm_compute; intros ?%list_elem_of_In; naive_solver|].
    by eapply (convert_vpc_keys _ _ Hconv).
  - apply (Hfree "SecurityGroup"); [by vm_compute; intros ?%list_elem_of_In; naive_solver|].
    by eapply (convert_sg_keys _ _ Hconv).
  - apply (Hfree "EC2Instance"); [by vm_compute; intros ?%list_elem_of_In; naive_solver|].
    by eapply (convert_ec2_keys _ _ Hconv).
Qed.

(** *** Colliding keys *)

Lemma vpc_loop_size (vpcs : list json) :
  ∀ i (resources resources' : gmap string json),
  vpc_loop i vpcs resources = Ok resources' →
  size resources' ≤ size resources + length vpcs.
Proof.
  induction vpcs as [|vpc vpcs IH]; intros i resources resources'.
  - intros [= <-]. cbn. lia.
  - cbn [vpc_loop]. destruct (vpc_entry i vpc) as [[k d]|e]; [|done].
    cbn. intros Hloop%IH. rewrite map_size_insert in Hloop.
    cbn [length]. destruct (resources !! k); unfold id in Hloop; lia.
Qed.

(** X11.  The network converter does not deduplicate: when a record derives
    a key and no later record derives it again, the entry under that key is
    this record's, whatever earlier records stored there.  So the result
    never has more entries than there are records, and has fewer when keys
    collide. *)
Theorem vpc_later_record_wins (m : gmap string json) (pre post : list json)
    (x : json) (k : string) (d : json) (resources : gmap string json) :
  m !! "Vpcs" = Some (JList (pre ++ x :: post)) →
  vpc_entry (length pre) x = Ok (k, d) →
  (∀ j y d', post !! j = Some y → vpc_entry (S (length pre) + j) y ≠ Ok (k, d')) →
  convert_vpc_to_cf (JObj m) = Ok resources →
  resources !! k = Some d ∧ size resources ≤ length (pre ++ x :: post).
Proof.
  intros Hm Hentry Hpost. unfold convert_vpc_to_cf. cbn. rewrite Hm. cbn.
  intros Hloop. split; [|by apply vpc_loop_size in Hloop].
  rewrite vpc_loop_app in Hloop.
  destruct (vpc_loop 0 pre ∅) as [resources1|e]; [|done].
  cbn in Hloop. rewrite Hentry in Hloop. cbn in Hloop.
  rewrite (vpc_loop_untouched k post _ _ _ Hpost Hloop).
  apply lookup_insert_eq.
Qed.

(** *** Flattening *)

Lemma range_loop_fmap (cf_rule : gmap string json) (ranges : list json) :
  Forall is_dict ranges →
  ∀ ingress_rules,
  range_loop cf_rule ranges ingress_rules
  = Ok (ingress_rules ++
        ((λ ip_range,
            JObj (<["CidrIp" := default (JStr "0.0.0.0/0") (field "CidrIp" ip_range)]>
                    cf_rule)) <$> ranges)).
Proof.
  induction 1 as [|ip_range ranges [m ->] _ IH]; intros ingress_rules.
  - cbn. by rewrite app_nil_r.
  - cbn. rewrite IH. by rewrite <-app_assoc.
Qed.

Lemma rule_step_entries (rule : json) (ingress_rules : list json) :
  rule_shape rule →
  rule_step rule ingress_rules = Ok (ingress_rules ++ rule_entries rule).
Proof.
  intros (m & -> & [Hm|(ranges & Hm & Hranges)]); unfold rule_step; cbn; rewrite Hm; cbn.
  - by rewrite app_nil_r.
  - by apply range_loop_fmap.
Qed.

Lemma rule_loop_entries (rules : list json) :
  Forall rule_shape rules →
  ∀ ingress_rules,
  rule_loop rules ingress_rules
  = Ok (ingress_rules ++ concat (rule_entries <$> rules)).
Proof.
  induction 1 as [|rule rules Hrule _ IH]; intros ingress_rules.
  - cbn. by rewrite app_nil_r.
  - cbn [rule_loop]. rewrite rule_step_entries by done. cbn.
    rewrite IH. by rewrite <-app_assoc.
Qed.

(** X12.  On rules that are dicts whose [IpRanges], if any, is a list of
    dicts, the two nested loops compute a comprehension: the ingress list
    holds, rule after rule and range after range, one copy of the rule's
    protocol and ports (defaults ["tcp"], 80, 80) per address range, with
    that range's [CidrIp] (default ["0.0.0.0/0"]).  It has as many entries
    as the rules have address ranges. *)
Theorem ingress_is_comprehension (rules : list json) :
  Forall rule_shape rules →
  (∀ ingress_rules,
     rule_loop rules ingress_rules
     = Ok (ingress_rules ++ concat (rule_entries <$> rules))) ∧
  (∀ (sg : gmap string json) k d,
     sg !! "IpPermissions" = Some (JList rules) →
     sg_entry (JObj sg) = Ok (Some (k, d)) →
     ingress_of d = Some (JList (concat (rule_entries <$> rules)))) ∧
  length (concat (rule_entries <$> rules)) = sum_list (range_count <$> rules).
Proof.
  intros Hrules. split; [by apply rule_loop_entries|split].
  - intros sg k d Hsg Hentry.
    destruct (sg_entry_ingress _ _ _ Hentry)
      as (ps & rules' & ingress & Hps & Hiter & Hloop & ->).
    cbn in Hps. rewrite Hsg in Hps. injection Hps as <-.
    cbn in Hiter. injection Hiter as <-.
    rewrite rule_loop_entries in Hloop by done. by injection Hloop as <-.
  - induction Hrules as [|rule rules (m & -> & Hm) _ IH]; [done|].
    cbn [fmap list_fmap concat sum_list]. rewrite length_app, IH. f_equal.
    unfold rule_entries, range_count, field.
    destruct Hm as [->|(ranges & -> & _)]; [done|]. by rewrite length_fmap.
Qed.

Lemma instance_loop_app (pre post : list json) :
  ∀ resources,
  instance_loop (pre ++ post) resources
  = resources' ← instance_loop pre resources; instance_loop post resources'.
Proof.
  induction pre as [|instance pre IH]; intros resources; [done|].
  cbn [app instance_loop].
  destruct (ec2_entry instance) as [[k d]|e]; cbn; [apply IH|done].
Qed.

Lemma reservation_loop_concat (reservations : list json) :
  Forall holds_instance_list reservations →
  ∀ resources,
  reservation_loop reservations resources
  = instance_loop (concat (instances_of <$> reservations)) resources.
Proof.
  induction 1 as [|reservation reservations (m & -> & Hm) _ IH]; intros resources;
    [done|].
  cbn [reservation_loop fmap list_fmap concat]. rewrite instance_loop_app.
  unfold instances_of, field. cbn.
  destruct Hm as [->|(instances & -> & _)]; cbn; [apply IH|].
  destruct (instance_loop instances resources) as [resources'|e]; cbn; [apply IH|done].
Qed.

(** X13.  The compute converter flattens the two levels: on reservations
    that are dicts whose [Instances], if any, is a list, it does exactly
    what the instance loop does on all the instances in one sequence, in
    order, errors included.  A reservation without instances changes
    nothing. *)
Theorem ec2_flattens_reservations (m : gmap string json) (reservations : list json) :
  m !! "Reservations" = Some (JList reservations) →
  Forall holds_instance_list reservations →
  convert_ec2_to_cf (JObj m)
  = instance_loop (concat (instances_of <$> reservations)) ∅.
Proof.
  intros Hm Hshape. unfold convert_ec2_to_cf. cbn. rewrite Hm. cbn.
  by apply reservation_loop_concat.
Qed.

(** *** Counting instances and security groups *)

Lemma NoDup_fmap_eq {A B} (f : A → B) (l : list A) (x y : A) :
  NoDup (f <$> l) → x ∈ l → y ∈ l → f x = f y → x = y.
Proof.
  induction l as [|z l IH]; [by inversion 2|].
  rewrite fmap_cons, NoDup_cons, !elem_of_cons.
  intros [Hz Hl] [->|Hx] [->|Hy] Hf; auto.
  - destruct Hz. rewrite Hf. by apply list_elem_of_fmap_2.
  - destruct Hz. rewrite <-Hf. by apply list_elem_of_fmap_2.
Qed.

Lemma ec2_entry_native (instance : json) (id k : string) (d : json) :
  instance_native_id instance = Some id →
  ec2_entry instance = Ok (k, d) →
  k = ec2_key id ∧ name_tag d = Some (JStr ("Imported-" +:+ id)).
Proof.
  unfold instance_native_id, field, ec2_entry.
  destruct instance as [| | | | |?|m]; try done.
  destruct (m !! "InstanceId") as [[| | | |id'| |]|] eqn:Hm; try done.
  intros [= ->]. cbn. rewrite Hm. cbn.
  destruct (Py.iter _) as [refs|e]; [|done]. cbn.
  destruct (group_ids refs) as [ids|e]; [|done]. cbn.
  intros [= <- <-]. done.
Qed.

Lemma instance_loop_Forall (P : string → json → Prop) (instances : list json) :
  (∀ instance k d, instance ∈ instances → ec2_entry instance = Ok (k, d) → P k d) →
  ∀ (resources resources' : gmap string json),
  map_Forall P resources →
  instance_loop instances resources = Ok resources' →
  map_Forall P resources'.
Proof.
  induction instances as [|instance instances IH]; intros Hentry resources resources' Hres.
  - by intros [= <-].
  - cbn [instance_loop].
    destruct (ec2_entry instance) as [[k d]|e] eqn:Hinst; [|done]. cbn.
    apply IH.
    + intros x k' d' Hx. apply Hentry. by right.
    + apply map_Forall_insert_2; [|done]. apply (Hentry instance); [by left|done].
Qed.

Lemma instance_loop_dom (instances : list json) (ids : list string) :
  Forall2 (λ instance id, instance_native_id instance = Some id) instances ids →
  ∀ (resources resources' : gmap string json),
  instance_loop instances resources = Ok resources' →
  dom resources' = dom resources ∪ list_to_set (ec2_key <$> ids).
Proof.
  intros Hids. induction Hids as [|instance id instances ids Hid _ IH];
    intros resources resources'.
  - intros [= <-]. cbn. set_solver.
  - cbn [instance_loop].
    destruct (ec2_entry instance) as [[k d]|e] eqn:Hentry; [|done]. cbn.
    destruct (ec2_entry_native _ _ _ _ Hid Hentry) as [-> _].
    intros Hloop%IH. rewrite Hloop, dom_insert_L. set_solver.
Qed.

(** X14.  When every instance of well-shaped reservations has a string
    [InstanceId] and the derived keys are pairwise distinct, the compute
    converter returns one entry per instance, over all reservations
    together: the entry of an instance is keyed ["EC2Instance"] followed by
    its identifier without hyphens and tagged ["Imported-"] followed by the
    identifier as it is. *)
Theorem ec2_count_and_tags (m : gmap string json) (reservations : list json)
    (ids : list string) :
  m !! "Reservations" = Some (JList reservations) →
  Forall reservation_shape reservations →
  Forall2 (λ instance id, instance_native_id instance = Some id)
          (concat (instances_of <$> reservations)) ids →
  NoDup (ec2_key <$> ids) →
  ∃ resources,
    convert_ec2_to_cf (JObj m) = Ok resources ∧
    size resources = length (concat (instances_of <$> reservations)) ∧
    ∀ id, id ∈ ids →
      ∃ d, resources !! ec2_key id = Some d ∧
           name_tag d = Some (JStr ("Imported-" +:+ id)).
Proof.
  intros Hm Hshape Hids Hnodup.
  assert (Forall holds_instance_list reservations) as Hlists.
  { eapply Forall_impl; [exact Hshape|]. intros r (rm & -> & Hrm).
    exists rm. split; [done|]. destruct Hrm as [?|(l & ? & _)]; [by left|].
    right. exists l. split; [done|]. by apply Forall_true. }
  destruct (reservation_loop_ok reservations Hshape ∅) as [resources Hloop].
  exists resources.
  assert (convert_ec2_to_cf (JObj m) = Ok resources) as Hconv.
  { unfold convert_ec2_to_cf. cbn. rewrite Hm. cbn. exact Hloop. }
  rewrite reservation_loop_concat in Hloop by done.
  pose proof (instance_loop_dom _ _ Hids _ _ Hloop) as Hdom.
  rewrite dom_empty_L, (left_id_L ∅ (∪)) in Hdom.
  split; [exact Hconv|split].
  - rewrite <-size_dom, Hdom, size_list_to_set, length_fmap by done.
    symmetry. by eapply Forall2_length.
  - intros id Hid.
    assert (ec2_key id ∈ dom resources) as [d Hd]%elem_of_dom.
    { rewrite Hdom, elem_of_list_to_set. by apply list_elem_of_fmap_2. }
    exists d. split; [exact Hd|].
    assert (map_Forall (λ k d, ∃ id', id' ∈ ids ∧ k = ec2_key id' ∧
              name_tag d = Some (JStr ("Imported-" +:+ id'))) resources) as Hinv.
    { eapply instance_loop_Forall; [|apply map_Forall_empty|exact Hloop].
      intros instance k' d' Hin Hentry.
      apply list_elem_of_lookup in Hin as [j Hj].
      destruct (Forall2_lookup_l _ _ _ _ _ Hids Hj) as (id' & Hj' & Hnative).
      exists id'. split; [by eapply list_elem_of_lookup_2|].
      by eapply ec2_entry_native. }
    destruct (Hinv _ _ Hd) as (id' & Hid' & Hkey & Htag).
    by rewrite (NoDup_fmap_eq ec2_key ids id id' Hnodup Hid Hid' Hkey).
Qed.

Lemma sg_entry_native (sg : json) (id : string) (entry : option (string * json)) :
  sg_native_id sg = Some id → is_default_group sg = false →
  sg_entry sg = Ok entry → ∃ d, entry = Some (sg_key id, d).
Proof.
  unfold sg_native_id, is_default_group, field, sg_entry.
  destruct sg as [| | | | |?|m]; try done.
  destruct (m !! "GroupId") as [[| | | |id'| |]|] eqn:Hm; try done.
  intros [= ->] Hdefault. cbn.
  assert (Py.eq_str (default JNull (m !! "GroupName")) "default" = false) as ->.
  { by destruct (m !! "GroupName"). }
  rewrite Hm. cbn.
  destruct (Py.iter _) as [rules|e]; [|done]. cbn.
  destruct (rule_loop rules []) as [ingress_rules|e]; [|done]. cbn.
  intros [= <-]. eauto.
Qed.

Lemma sg_loop_dom (sgs : list json) (ids : list string) :
  Forall2 (λ sg id, sg_native_id sg = Some id ∧ is_default_group sg = false) sgs ids →
  ∀ (resources resources' : gmap string json),
  sg_loop sgs resources = Ok resources' →
  dom resources' = dom resources ∪ list_to_set (sg_key <$> ids).
Proof.
  intros Hids. induction Hids as [|sg id sgs ids [Hid Hdefault] _ IH];
    intros resources resources'.
  - intros [= <-]. cbn. set_solver.
  - cbn [sg_loop]. destruct (sg_entry sg) as [entry|e] eqn:Hentry; [|done]. cbn.
    destruct (sg_entry_native _ _ _ Hid Hdefault Hentry) as [d ->].
    intros Hloop%IH. cbn in Hloop. rewrite Hloop, dom_insert_L. set_solver.
Qed.

(** X15.  When the security groups are well shaped, those not named
    ["default"] have a string [GroupId] and the derived keys are pairwise
    distinct, the access-control converter returns one entry per group
    that is not named ["default"], keyed ["SecurityGroup"] followed by the
    identifier without hyphens. *)
Theorem sg_count_and_keys (m : gmap string json) (sgs : list json)
    (ids : list string) :
  m !! "SecurityGroups" = Some (JList sgs) →
  Forall sg_shape sgs →
  Forall2 (λ sg id, sg_native_id sg = Some id)
          (filter (λ sg, ¬ is_default_group sg) sgs) ids →
  NoDup (sg_key <$> ids) →
  ∃ resources,
    convert_security_groups_to_cf (JObj m) = Ok resources ∧
    size resources = length (filter (λ sg, ¬ is_default_group sg) sgs) ∧
    ∀ k, is_Some (resources !! k) ↔ k ∈ sg_key <$> ids.
Proof.
  intros Hm Hshape Hids Hnodup.
  destruct (sg_loop_ok sgs Hshape ∅) as [resources Hloop].
  exists resources.
  assert (convert_security_groups_to_cf (JObj m) = Ok resources) as Hconv.
  { unfold convert_security_groups_to_cf. cbn. rewrite Hm. cbn. exact Hloop. }
  rewrite <-sg_loop_filter in Hloop.
  assert (Forall2 (λ sg id, sg_native_id sg = Some id ∧ is_default_group sg = false)
            (filter (λ sg, ¬ is_default_group sg) sgs) ids) as Hids'.
  { apply Forall2_same_length_lookup. split; [by eapply Forall2_length|].
    intros j sg id Hsg Hid. split.
    - by eapply (Forall2_lookup_lr _ _ _ _ _ _ Hids).
    - apply list_elem_of_lookup_2, list_elem_of_filter in Hsg as [Hsg _].
      by destruct (is_default_group sg). }
  pose proof (sg_loop_dom _ _ Hids' _ _ Hloop) as Hdom.
  rewrite dom_empty_L, (left_id_L ∅ (∪)) in Hdom.
  split; [exact Hconv|split].
  - rewrite <-size_dom, Hdom, size_list_to_set, length_fmap by done.
    symmetry. by eapply Forall2_length.
  - intros k. rewrite <-elem_of_dom, Hdom. set_solver.
Qed.

(** *** Exports without records *)

Lemma iter_dict_nonempty (records : gmap string json) :
  records ≠ ∅ → ∃ k rest, Py.iter (JObj records) = Ok (JStr k :: rest).
Proof.
  intros Hne. cbn. destruct (map_to_list records) as [|[k v] l] eqn:Hl.
  - by apply map_to_list_empty_iff in Hl.
  - cbn. eauto.
Qed.

(** X16.  Each converter returns the empty mapping when its top-level key
    is missing or holds the empty list.  It raises [TypeError] when the
    export itself, or the value under the key, is [None], a [bool] or a
    number, and [AttributeError] when the value under the key is a dict
    with entries (the loop then runs over its keys). *)
Theorem converters_on_degenerate_exports :
  degenerate_exports convert_vpc_to_cf "Vpcs" ∧
  degenerate_exports convert_security_groups_to_cf "SecurityGroups" ∧
  degenerate_exports convert_ec2_to_cf "Reservations".
Proof.
  unfold degenerate_exports, convert_vpc_to_cf, convert_security_groups_to_cf,
    convert_ec2_to_cf.
  repeat split.
  all: try (intros m Hm; cbn; by rewrite Hm).
  all: try (intros x Hx; by destruct x).
  all: try (intros m x Hm Hx; cbn; rewrite Hm; cbn; by destruct x).
  all: intros m records Hm Hne;
    destruct (iter_dict_nonempty records Hne) as (k & rest & Hiter);
    cbn -[Py.iter]; rewrite Hm; cbn -[Py.iter]; by rewrite Hiter.
Qed.

(** *** What every entry looks like *)

Lemma vpc_loop_Forall (P : string → json → Prop) (vpcs : list json) :
  (∀ i vpc k d, vpc_entry i vpc = Ok (k, d) → P k d) →
  ∀ i (resources resources' : gmap string json),
  map_Forall P resources →
  vpc_loop i vpcs resources = Ok resources' →
  map_Forall P resources'.
Proof.
  intros Hentry. induction vpcs as [|vpc vpcs IH]; intros i resources resources' Hres.
  - by intros [= <-].
  - cbn [vpc_loop]. destruct (vpc_entry i vpc) as [[k d]|e] eqn:Hvpc; [|done].
    cbn. apply IH, map_Forall_insert_2; [|done]. by eapply Hentry.
Qed.

Lemma sg_loop_Forall (P : string → json → Prop) (sgs : list json) :
  (∀ sg k d, sg_entry sg = Ok (Some (k, d)) → P k d) →
  ∀ (resources resources' : gmap string json),
  map_Forall P resources →
  sg_loop sgs resources = Ok resources' →
  map_Forall P resources'.
Proof.
  intros Hentry. induction sgs as [|sg sgs IH]; intros resources resources' Hres.
  - by intros [= <-].
  - cbn [sg_loop]. destruct (sg_entry sg) as [[[k d]|]|e] eqn:Hsg; [| |done]; cbn.
    + apply IH, map_Forall_insert_2; [|done]. by eapply Hentry.
    + by apply IH.
Qed.

Lemma reservation_loop_Forall (P : string → json → Prop) (reservations : list json) :
  (∀ instance k d, ec2_entry instance = Ok (k, d) → P k d) →
  ∀ (resources resources' : gmap string json),
  map_Forall P resources →
  reservation_loop reservations resources = Ok resources' →
  map_Forall P resources'.
Proof.
  intros Hentry.
  induction reservations as [|reservation reservations IH];
    intros resources resources' Hres.
  - by intros [= <-].
  - cbn [reservation_loop].
    destruct (Py.get reservation "Instances" (JList [])) as [v|e]; [|done]. cbn.
    destruct (Py.iter v) as [records|e]; [|done]. cbn.
    destruct (instance_loop records resources) as [resources1|e] eqn:Hloop; [|done].
    cbn. apply IH. eapply instance_loop_Forall; [|exact Hres|exact Hloop].
    intros instance k d _. apply Hentry.
Qed.

(** X17.  Every entry a converter returns has the type of its category
    ([AWS::EC2::VPC], [AWS::EC2::SecurityGroup], [AWS::EC2::Instance]) and
    exactly one tag, with key [Name] and a value that starts with
    ["Imported-"]. *)
Theorem entries_typed_and_tagged (data : json) (resources : gmap string json)
    (k : string) (d : json) :
  resources !! k = Some d →
  (convert_vpc_to_cf data = Ok resources → well_tagged "AWS::EC2::VPC" d) ∧
  (convert_security_groups_to_cf data = Ok resources →
     well_tagged "AWS::EC2::SecurityGroup" d) ∧
  (convert_ec2_to_cf data = Ok resources → well_tagged "AWS::EC2::Instance" d).
Proof.
  intros Hk. split; [|split]; intros Hconv.
  - destruct (convert_vpc_inv _ _ Hconv) as [->|[records Hloop]]; [done|].
    refine (vpc_loop_Forall (λ _ d, well_tagged "AWS::EC2::VPC" d) records _ 0 ∅ _
              (map_Forall_empty _) Hloop k d Hk).
    intros i vpc k' d'. unfold vpc_entry.
    destruct vpc as [| | | | |?|m]; try done. cbn.
    destruct (Py.strip_hyphens _) as [stripped|e]; [|done]. cbn.
    intros [= <- <-]. split; [done|]. by eexists _, _.
  - destruct (convert_sg_inv _ _ Hconv) as [->|[records Hloop]]; [done|].
    refine (sg_loop_Forall (λ _ d, well_tagged "AWS::EC2::SecurityGroup" d) records _ ∅ _
              (map_Forall_empty _) Hloop k d Hk).
    intros sg k' d'. unfold sg_entry.
    destruct sg as [| | | | |?|m]; try done. cbn.
    destruct (Py.eq_str _ _); [done|].
    destruct (Py.strip_hyphens _) as [stripped|e]; [|done]. cbn.
    destruct (Py.iter _) as [rules|e]; [|done]. cbn.
    destruct (rule_loop rules []) as [ingress_rules|e]; [|done]. cbn.
    intros [= <- <-]. split; [done|]. by eexists _, _.
  - destruct (convert_ec2_inv _ _ Hconv) as [->|[records Hloop]]; [done|].
    refine (reservation_loop_Forall (λ _ d, well_tagged "AWS::EC2::Instance" d) records _ ∅ _
              (map_Forall_empty _) Hloop k d Hk).
    intros instance k' d'. unfold ec2_entry.
    destruct instance as [| | | | |?|m]; try done. cbn.
    destruct (Py.strip_hyphens _) as [stripped|e]; [|done]. cbn.
    destruct (Py.iter _) as [refs|e]; [|done]. cbn.
    destruct (group_ids refs) as [ids|e]; [|done]. cbn.
    intros [= <- <-]. split; [done|]. by eexists _, _.
Qed.

(** *** The loader and the run, in general *)

Lemma load_json_file_loaded (file_path : string) (w : world) :
  load_json_file file_path w
  = ((loaded (disk w) file_path).1,
     {| disk := disk w; stdout := stdout w ++ (loaded (disk w) file_path).2 |}).
Proof.
  unfold load_json_file, try_except, read_file, loaded, lift.
  io_step. destruct w as [d out]. cbn [disk stdout].
  destruct (open_read d file_path) as [text|e]; cbn.
  - destruct (json_load text) as [v|e]; cbn; [by rewrite app_nil_r|].
    destruct e; cbn; by rewrite ?app_nil_r.
  - destruct e; cbn; by rewrite ?app_nil_r.
Qed.

(** X2.  The loader never changes the file system.  A document that parses
    is returned as it is, with nothing printed.  Only [FileNotFoundError] and
    [JSONDecodeError] are caught: any other exception of [open] or of the
    parser leaves the loader, with nothing printed. *)
Theorem load_json_file_passes_through (file_path : string) (w : world) :
  disk (load_json_file file_path w).2 = disk w ∧
  (∀ text v,
     open_read (disk w) file_path = Ok text → json_load text = Ok v →
     load_json_file file_path w = (Ok v, w)) ∧
  (∀ e,
     (text ← open_read (disk w) file_path; json_load text) = Raise e →
     e ≠ FileNotFoundError → e ≠ JSONDecodeError →
     load_json_file file_path w = (Raise e, w)).
Proof.
  rewrite load_json_file_loaded. split; [done|]. unfold loaded.
  destruct w as [d out]. cbn [disk stdout]. split.
  - intros text v -> Hload. cbn. rewrite Hload. cbn. by rewrite app_nil_r.
  - intros e -> Hfnf Hjson. destruct e; cbn; by rewrite ?app_nil_r.
Qed.

(** X3.  With any number of arguments other than one, the script prints its
    usage line and exits with status 1; it reads and writes nothing. *)
Theorem run_usage_error (argv : list string) (w : world) :
  length argv ≠ 2 →
  run argv w
  = (1%Z,
     {| disk := disk w;
        stdout := stdout w ++
          ["Usage: python3 cloudformation_converter.py <export_directory>"] |}).
Proof.
  intros Hlen. unfold run, main.
  destruct argv as [|prog [|arg [|extra argv]]]; cbn in Hlen; try done.
Qed.

(** X4.  When the export directory does not exist, the script prints an
    error line and exits with status 1; no export is loaded and nothing is
    written. *)
Theorem run_missing_directory (prog arg : string) (w : world) :
  path_exists (disk w) (Path arg) = false →
  run [prog; arg] w
  = (1%Z,
     {| disk := disk w;
        stdout := stdout w ++
          ["Error: Export directory " +:+ Path arg +:+ " does not exist"] |}).
Proof.
  intros Hdir. unfold run, main, exists_. io_step. by rewrite Hdir.
Qed.

(** Run [main] up to the end of the three loads. *)
Ltac main_loads Hdir :=
  unfold run, main, exists_; io_step; rewrite Hdir; cbn [negb];
  io_step; cbn [print];
  do 3 (io_step; rewrite load_json_file_loaded; cbn [disk stdout]).

(** X5.  When the directory exists, the three loads return and the three
    converters return, the run writes the template whose [Resources] holds
    the entries of the three results, prints the path and the number of
    entries, which is the sum of the three sizes, and exits with status 0. *)
Theorem run_writes_merged_template (prog arg : string) (w : world)
    (v1 v2 v3 : json) (l1 l2 l3 : list string) (r1 r2 r3 : gmap string json)
    (d' : fs) :
  let export_dir := Path arg in
  let output_file := joinpath export_dir "cloudformation-template.json" in
  path_exists (disk w) export_dir = true →
  loaded (disk w) (joinpath export_dir "vpcs.json") = (Ok v1, l1) →
  loaded (disk w) (joinpath export_dir "security-groups.json") = (Ok v2, l2) →
  loaded (disk w) (joinpath export_dir "ec2-instances.json") = (Ok v3, l3) →
  convert_vpc_to_cf v1 = Ok r1 →
  convert_security_groups_to_cf v2 = Ok r2 →
  convert_ec2_to_cf v3 = Ok r3 →
  open_write (disk w) output_file (json_dump (cf_template (r3 ∪ (r2 ∪ r1)))) = Ok d' →
  run [prog; arg] w
  = (0%Z,
     {| disk := d';
        stdout := stdout w ++
          ["Converting exports from " +:+ export_dir +:+ " to CloudFormation..."]
          ++ l1 ++ l2 ++ l3 ++
          [ "CloudFormation template created: " +:+ output_file;
            "Resources converted: " +:+ pretty (size r1 + size r2 + size r3) ] |}).
Proof.
  intros export_dir output_file Hdir Hl1 Hl2 Hl3 Hr1 Hr2 Hr3 Hwrite.
  subst export_dir output_file.
  main_loads Hdir. rewrite Hl1, Hl2, Hl3. cbn [fst snd].
  unfold mbind, io_bind, lift, print. rewrite Hr1, Hr2, Hr3.
  rewrite merged_size by eauto using convert_vpc_keys, convert_sg_keys, convert_ec2_keys.
  unfold update. rewrite (right_id_L ∅ (∪)).
  erewrite write_file_returns by exact Hwrite. cbn [disk stdout exit_status].
  by rewrite <-!app_assoc.
Qed.

(** X6.  When one of the converters raises, the run ends with status 1
    before anything is written: the file system is as it was, and neither
    the path of the template nor a count is printed. *)
Theorem run_aborts_on_converter_error (prog arg : string) (w : world)
    (v1 v2 v3 : json) (l1 l2 l3 : list string) :
  let export_dir := Path arg in
  path_exists (disk w) export_dir = true →
  loaded (disk w) (joinpath export_dir "vpcs.json") = (Ok v1, l1) →
  loaded (disk w) (joinpath export_dir "security-groups.json") = (Ok v2, l2) →
  loaded (disk w) (joinpath export_dir "ec2-instances.json") = (Ok v3, l3) →
  is_Raise (convert_vpc_to_cf v1) ∨
  is_Raise (convert_security_groups_to_cf v2) ∨
  is_Raise (convert_ec2_to_cf v3) →
  run [prog; arg] w
  = (1%Z,
     {| disk := disk w;
        stdout := stdout w ++
          ["Converting exports from " +:+ export_dir +:+ " to CloudFormation..."]
          ++ l1 ++ l2 ++ l3 |}).
Proof.
  intros export_dir Hdir Hl1 Hl2 Hl3 Hraise. subst export_dir.
  main_loads Hdir. rewrite Hl1, Hl2, Hl3. cbn [fst snd].
  rewrite <-!app_assoc.
  assert (∀ (allowed : list exn) (r : result (gmap string json)) e,
    raises_only allowed r → r = Raise e →
    allowed ⊆ [TypeError; AttributeError; KeyError] →
    exit_status (Raise e) = 1%Z) as Hstatus.
  { intros allowed r e Hr He Hsub. apply Hr, Hsub in He.
    repeat (apply elem_of_cons in He as [->|He]; [done|]). by inversion He. }
  unfold mbind, io_bind, lift.
  destruct (convert_vpc_to_cf v1) as [r1|e1] eqn:Hr1.
  2:{ f_equal. eapply Hstatus; [apply convert_vpc_raises|done|set_solver]. }
  destruct (convert_security_groups_to_cf v2) as [r2|e2] eqn:Hr2.
  2:{ f_equal. eapply Hstatus; [apply convert_sg_raises|done|set_solver]. }
  destruct (convert_ec2_to_cf v3) as [r3|e3] eqn:Hr3.
  2:{ f_equal. eapply Hstatus; [apply convert_ec2_raises|done|set_solver]. }
  by destruct Hraise as [[e He]|[[e He]|[e He]]].
Qed.

(** X7.  Whatever the arguments and the file system, a run touches the
    file system in one place at most: either it leaves the disk as it was,
    or it has opened [cloudformation-template.json] in the export directory
    for writing and written a template with the fixed header into it.  The
    disk is then the one that write leaves, whole file or not, and the exit
    status is 0 when the write returned and that of the exception when it
    raised. *)
Theorem run_writes_only_template (argv : list string) (w : world) :
  disk (run argv w).2 = disk w ∨
  ∃ prog arg resources d1,
    argv = [prog; arg] ∧
    open_w (disk w) (joinpath (Path arg) "cloudformation-template.json") = Ok d1 ∧
    let written :=
      write_text d1 (joinpath (Path arg) "cloudformation-template.json")
        (json_dump (cf_template resources)) in
    disk (run argv w).2 = written.2 ∧
    (run argv w).1 = exit_status written.1.
Proof.
  destruct argv as [|prog [|arg [|extra argv]]]; try by left.
  cut (∀ out, run [prog; arg] w = out →
         disk out.2 = disk w ∨
         ∃ resources d1,
           open_w (disk w) (joinpath (Path arg) "cloudformation-template.json") = Ok d1 ∧
           let written :=
             write_text d1 (joinpath (Path arg) "cloudformation-template.json")
               (json_dump (cf_template resources)) in
           disk out.2 = written.2 ∧ out.1 = exit_status written.1).
  { intros Hout. destruct (Hout _ eq_refl) as [?|(resources & d1 & ? & ?)]; [by left|].
    right. by exists prog, arg, resources, d1. }
  intros out.
  destruct (path_exists (disk w) (Path arg)) eqn:Hdir.
  2:{ unfold run, main, exists_. io_step. rewrite Hdir. intros <-. by left. }
  main_loads Hdir.
  destruct (loaded (disk w) (joinpath (Path arg) "vpcs.json")) as [[v1|e1] l1];
    cbn [fst snd]; [|intros <-; by left].
  destruct (loaded (disk w) (joinpath (Path arg) "security-groups.json"))
    as [[v2|e2] l2]; cbn [fst snd]; [|intros <-; by left].
  destruct (loaded (disk w) (joinpath (Path arg) "ec2-instances.json"))
    as [[v3|e3] l3]; cbn [fst snd]; [|intros <-; by left].
  unfold mbind, io_bind, lift, write_file, print.
  destruct (convert_vpc_to_cf v1) as [r1|?]; [|intros <-; by left].
  destruct (convert_security_groups_to_cf v2) as [r2|?]; [|intros <-; by left].
  destruct (convert_ec2_to_cf v3) as [r3|?]; [|intros <-; by left].
  cbn [disk stdout].
  destruct (open_w _ _) as [d1|?] eqn:Hopen; [|intros <-; by left].
  intros <-. right. exists (update (update (update ∅ r1) r2) r3), d1.
  split; [done|].
  destruct (write_text d1 _ _) as [[[]|e] d2]; by cbn.
Qed.

(** X18.  When the three loads and the three converters have returned
    and the write of the template fails, the run ends with the status of the
    exception (1 for every error of the operating system) without printing
    the path or the count.  When [open] itself raises, the file system is
    as it was; when the file was opened and the write raises, the file
    system is the one the write leaves, with the template file truncated
    or partly written. *)
Theorem run_failed_write (prog arg : string) (w : world)
    (v1 v2 v3 : json) (l1 l2 l3 : list string) (r1 r2 r3 : gmap string json) :
  let export_dir := Path arg in
  let output_file := joinpath export_dir "cloudformation-template.json" in
  let printed :=
    stdout w ++
    ["Converting exports from " +:+ export_dir +:+ " to CloudFormation..."]
    ++ l1 ++ l2 ++ l3 in
  path_exists (disk w) export_dir = true →
  loaded (disk w) (joinpath export_dir "vpcs.json") = (Ok v1, l1) →
  loaded (disk w) (joinpath export_dir "security-groups.json") = (Ok v2, l2) →
  loaded (disk w) (joinpath export_dir "ec2-instances.json") = (Ok v3, l3) →
  convert_vpc_to_cf v1 = Ok r1 →
  convert_security_groups_to_cf v2 = Ok r2 →
  convert_ec2_to_cf v3 = Ok r3 →
  (∀ e, open_w (disk w) output_file = Raise e →
     run [prog; arg] w
     = (exit_status (Raise e), {| disk := disk w; stdout := printed |})) ∧
  (∀ d1 d2 e,
     open_w (disk w) output_file = Ok d1 →
     write_text d1 output_file (json_dump (cf_template (r3 ∪ (r2 ∪ r1))))
     = (Raise e, d2) →
     run [prog; arg] w
     = (exit_status (Raise e), {| disk := d2; stdout := printed |})).
Proof.
  intros export_dir output_file printed Hdir Hl1 Hl2 Hl3 Hr1 Hr2 Hr3.
  subst export_dir output_file printed.
  assert (update (update (update ∅ r1) r2) r3 = r3 ∪ (r2 ∪ r1)) as Hmerged.
  { unfold update. by rewrite (right_id_L ∅ (∪)). }
  split.
  - intros e Hopen. main_loads Hdir. rewrite Hl1, Hl2, Hl3. cbn [fst snd].
    unfold mbind, io_bind, lift, write_file, print. rewrite Hr1, Hr2, Hr3.
    cbn [disk stdout]. rewrite Hopen. by rewrite <-!app_assoc.
  - intros d1 d2 e Hopen Hwrite. main_loads Hdir. rewrite Hl1, Hl2, Hl3. cbn [fst snd].
    unfold mbind, io_bind, lift, write_file, print. rewrite Hr1, Hr2, Hr3.
    cbn [disk stdout]. rewrite Hopen, Hmerged, Hwrite. by rewrite <-!app_assoc.
Qed.

End Script.

(** ** The properties at sample exports *)

Lemma default_groups_contribute_nothing_witness :
  convert_security_groups_to_cf placeholder_repr
    (JObj (<["SecurityGroups" := JList [Sample.default_sg; Sample.web_sg]]> ∅))
  = convert_security_groups_to_cf placeholder_repr
      (JObj (<["SecurityGroups" :=
                 JList (filter (λ sg, ¬ is_default_group sg)
                               [Sample.default_sg; Sample.web_sg])]> ∅)) ∧
  ∃ sg d, sg ∈ [Sample.default_sg; Sample.web_sg] ∧
    is_default_group sg = false ∧
    sg_entry placeholder_repr sg = Ok (Some ("SecurityGroupsg0a1b", d)).
Proof.
  destruct (default_groups_contribute_nothing placeholder_repr ∅
              [Sample.default_sg; Sample.web_sg]) as [Hsame Hkeys].
  split; [exact Hsame|].
  apply (Hkeys {[ "SecurityGroupsg0a1b" := Sample.web_descriptor ]}).
  - vm_compute. reflexivity.
  - exists Sample.web_descriptor. vm_compute. reflexivity.
Defined.

Lemma rule_without_ranges_dropped_witness :
  rule_step Sample.bare_rule [] = Ok [] ∧
  sg_entry placeholder_repr
    (JObj (<["IpPermissions" := JList [Sample.bare_rule; JObj Sample.ssh_rule]]>
             {[ "GroupId" := JStr "sg-0a1b" ]}))
  = sg_entry placeholder_repr
      (JObj (<["IpPermissions" := JList [JObj Sample.ssh_rule]]>
               {[ "GroupId" := JStr "sg-0a1b" ]})).
Proof.
  assert (no_ranges Sample.bare_rule) as Hbare.
  { eexists. split; [reflexivity|]. right. reflexivity. }
  destruct (rule_without_ranges_dropped placeholder_repr Sample.bare_rule Hbare)
    as (Hstep & _ & Hentry).
  split; [apply Hstep|].
  apply (Hentry {[ "GroupId" := JStr "sg-0a1b" ]} [] [JObj Sample.ssh_rule]).
Defined.

(** The record set [{"Vpcs": [{}]}]: its one record, at index 0, has no
    [VpcId]; the key stored for it is ["VPCVPC0"], not ["VPC0"].  And a
    record whose [VpcId] is not a string gets no key: the conversion
    raises. *)
Lemma vpc_key_unnamed_counterexample :
  convert_vpc_to_cf placeholder_repr (JObj {[ "Vpcs" := JList [JObj ∅] ]})
  = Ok {[ "VPCVPC0" :=
      JObj {[ "Type" := JStr "AWS::EC2::VPC";
              "Properties" := JObj {[
                "CidrBlock" := JStr "10.0.0.0/16";
                "EnableDnsHostnames" := JBool true;
                "EnableDnsSupport" := JBool true;
                "Tags" := JList [
                  JObj {[ "Key" := JStr "Name";
                          "Value" := JStr "Imported-VPC0" ]} ] ]} ]} ]} ∧
  (¬ ∃ d, vpc_entry placeholder_repr 0 (JObj ∅) = Ok ("VPC" +:+ pretty 0, d)) ∧
  convert_vpc_to_cf placeholder_repr
    (JObj {[ "Vpcs" := JList [JObj {[ "VpcId" := JInt 5 ]}] ]})
  = Raise AttributeError.
Proof.
  split; [|split].
  - vm_compute. reflexivity.
  - intros [d Hd]. vm_compute in Hd. discriminate Hd.
  - vm_compute. reflexivity.
Qed.

Lemma vpc_count_and_keys_witness :
  ∃ resources,
    convert_vpc_to_cf placeholder_repr (JObj {[ "Vpcs" := JList Sample.two_vpcs ]})
    = Ok resources ∧
    size resources = 2 ∧
    ∀ k, is_Some (resources !! k) ↔ k ∈ ["VPCvpc0a"; "VPCvpc0b"].
Proof.
  apply (vpc_count_and_keys placeholder_repr
           {[ "Vpcs" := JList Sample.two_vpcs ]} Sample.two_vpcs ["vpc-0a"; "vpc-0b"]).
  - reflexivity.
  - repeat constructor.
  - apply (bool_decide_unpack _). vm_compute. exact I.
Defined.

Lemma vpc_ignores_dns_fields_witness :
  convert_vpc_to_cf placeholder_repr
    (JObj (<["Vpcs" := JList [Sample.vpc_dns_off]]> ∅))
  = convert_vpc_to_cf placeholder_repr
      (JObj (<["Vpcs" := JList [Sample.vpc_dns_on]]> ∅)).
Proof.
  assert ("VpcId" ∉ ({[ "EnableDnsHostnames"; "EnableDnsSupport" ]} : gset string))
    as Hid by (apply (bool_decide_unpack _); vm_compute; exact I).
  assert ("CidrBlock" ∉ ({[ "EnableDnsHostnames"; "EnableDnsSupport" ]} : gset string))
    as Hcidr by (apply (bool_decide_unpack _); vm_compute; exact I).
  apply (proj1 (vpc_ignores_dns_fields placeholder_repr _ Hid Hcidr)).
  constructor; [|constructor].
  eexists _, _. split; [reflexivity|]. split; [reflexivity|].
  intros k Hk. rewrite !lookup_insert_ne; [done|set_solver..].
Defined.

Lemma missing_exports_give_empty_template_witness :
  run placeholder_repr (rt := flat_runtime)
    ["cloudformation_converter.py"; "exports"]
    (@World flat_runtime Sample.empty_dir [])
  = (0%Z,
     @World flat_runtime
       (<["exports/cloudformation-template.json" :=
            File (dump 16 (JObj {[
              "AWSTemplateFormatVersion" := JStr "2010-09-09";
              "Description" := JStr "Imported AWS Infrastructure";
              "Resources" := JObj ∅ ]}))]> Sample.empty_dir)
       [ "Converting exports from exports to CloudFormation...";
            "Warning: exports/vpcs.json not found";
            "Warning: exports/security-groups.json not found";
            "Warning: exports/ec2-instances.json not found";
            "CloudFormation template created: exports/cloudformation-template.json";
            "Resources converted: 0" ]).
Proof.
  apply (proj1 (proj2 (missing_exports_give_empty_template placeholder_repr
                         (rt := flat_runtime)))
           "cloudformation_converter.py" "exports"
           (@World flat_runtime Sample.empty_dir [])).
  - vm_compute. reflexivity.
  - vm_compute. reflexivity.
  - vm_compute. reflexivity.
  - vm_compute. reflexivity.
  - vm_compute. reflexivity.
Defined.

Lemma ec2_group_id_unguarded_witness :
  is_Raise (convert_ec2_to_cf placeholder_repr
    (JObj {[ "Reservations" := JList [
       JObj {[ "Instances" := JList [Sample.good_instance; JObj Sample.bad_instance] ]} ] ]})) ∧
  is_Ok (convert_ec2_to_cf placeholder_repr
    (JObj {[ "Reservations" := JList [
       JObj {[ "Instances" := JList [Sample.good_instance; JObj ∅] ]};
       JObj ∅ ] ]})).
Proof.
  destruct (ec2_group_id_unguarded placeholder_repr) as (Hraise & _ & Hok & _).
  split.
  - apply (Hraise _ {[ "Instances" := JList [Sample.good_instance; JObj Sample.bad_instance] ]}
             Sample.bad_instance
             [ JObj {[ "Instances" := JList [Sample.good_instance; JObj Sample.bad_instance] ]} ]
             [Sample.good_instance; JObj Sample.bad_instance]
             [ JObj {[ "GroupId" := JStr "sg-0a1b" ]}; JObj {[ "GroupName" := JStr "web" ]} ]
             (JObj {[ "GroupName" := JStr "web" ]})).
    + vm_compute. reflexivity.
    + apply list_elem_of_here.
    + vm_compute. reflexivity.
    + apply list_elem_of_further, list_elem_of_here.
    + vm_compute. reflexivity.
    + apply list_elem_of_further, list_elem_of_here.
    + eexists. split; [reflexivity|]. vm_compute. reflexivity.
  - apply (Hok _ [ JObj {[ "Instances" := JList [Sample.good_instance; JObj ∅] ]}; JObj ∅ ]).
    + vm_compute. reflexivity.
    + repeat constructor.
      * eexists. split; [reflexivity|]. right. eexists. split; [vm_compute; reflexivity|].
        repeat constructor.
        -- eexists. split; [reflexivity|]. split.
           ++ right. eexists. vm_compute. reflexivity.
           ++ right. eexists. split; [vm_compute; reflexivity|].
              repeat constructor. eexists. split; [reflexivity|].
              eexists. vm_compute. reflexivity.
        -- eexists. split; [reflexivity|]. split; left; vm_compute; reflexivity.
      * eexists. split; [reflexivity|]. left. vm_compute. reflexivity.
Defined.

(** ** Further properties at sample exports *)

Lemma load_json_file_invalid_witness :
  load_json_file (rt := table_runtime Exports.documents) "exports/notes.json"
    (@World (table_runtime Exports.documents) Exports.disk [])
  = (Ok (JObj ∅),
     @World (table_runtime Exports.documents) Exports.disk
       ["Error: Invalid JSON in exports/notes.json"]).
Proof.
  apply (load_json_file_invalid (rt := table_runtime Exports.documents)
           "exports/notes.json" "to do").
  - vm_compute. reflexivity.
  - vm_compute. reflexivity.
Defined.

Lemma load_json_file_passes_through_witness :
  load_json_file (rt := table_runtime Exports.documents) "exports/vpcs.json"
    (@World (table_runtime Exports.documents) Exports.disk [])
  = (Ok Exports.vpcs, @World (table_runtime Exports.documents) Exports.disk []) ∧
  load_json_file (rt := table_runtime Exports.documents) "exports/archive"
    (@World (table_runtime Exports.documents) Exports.disk [])
  = (Raise (OtherError "IsADirectoryError"),
     @World (table_runtime Exports.documents) Exports.disk []).
Proof.
  destruct (load_json_file_passes_through (rt := table_runtime Exports.documents)
              "exports/vpcs.json"
              (@World (table_runtime Exports.documents) Exports.disk []))
    as (_ & Hparsed & _).
  destruct (load_json_file_passes_through (rt := table_runtime Exports.documents)
              "exports/archive"
              (@World (table_runtime Exports.documents) Exports.disk []))
    as (_ & _ & Hother).
  split.
  - apply (Hparsed "<vpcs>"); vm_compute; reflexivity.
  - apply Hother; [vm_compute; reflexivity|discriminate..].
Defined.

Lemma run_usage_error_witness :
  run placeholder_repr (rt := flat_runtime) ["cloudformation_converter.py"]
    (@World flat_runtime Sample.empty_dir [])
  = (1%Z,
     @World flat_runtime Sample.empty_dir
       ["Usage: python3 cloudformation_converter.py <export_directory>"]).
Proof.
  apply (run_usage_error placeholder_repr (rt := flat_runtime)
           ["cloudformation_converter.py"]).
  cbn. lia.
Defined.

Lemma run_missing_directory_witness :
  run placeholder_repr (rt := flat_runtime)
    ["cloudformation_converter.py"; "backups"]
    (@World flat_runtime Sample.empty_dir [])
  = (1%Z,
     @World flat_runtime Sample.empty_dir
       ["Error: Export directory backups does not exist"]).
Proof.
  apply (run_missing_directory placeholder_repr (rt := flat_runtime)
           "cloudformation_converter.py" "backups").
  vm_compute. reflexivity.
Defined.

(** What the converters return on the sample exports. *)
Module Results.

Definition vpc_descriptor (cidr id : string) : json :=
  JObj {[ "Type" := JStr "AWS::EC2::VPC";
          "Properties" := JObj {[
            "CidrBlock" := JStr cidr;
            "EnableDnsHostnames" := JBool true;
            "EnableDnsSupport" := JBool true;
            "Tags" := JList [
              JObj {[ "Key" := JStr "Name";
                      "Value" := JStr ("Imported-" +:+ id) ]} ] ]} ]}.

Definition instance_descriptor (type : string) (group_ids : list json)
    (id : string) : json :=
  JObj {[ "Type" := JStr "AWS::EC2::Instance";
          "Properties" := JObj {[
            "ImageId" := JStr "ami-0abcdef1234567890";
            "InstanceType" := JStr type;
            "KeyName" := JStr "";
            "SecurityGroupIds" := JList group_ids;
            "SubnetId" := JStr "";
            "Tags" := JList [
              JObj {[ "Key" := JStr "Name";
                      "Value" := JStr ("Imported-" +:+ id) ]} ] ]} ]}.

Definition vpcs : gmap string json :=
  {[ "VPCvpc0a" := vpc_descriptor "10.1.0.0/16" "vpc-0a";
     "VPCvpc0b" := vpc_descriptor "10.0.0.0/16" "vpc-0b" ]}.

Definition colliding_vpcs : gmap string json :=
  {[ "VPCvpca1" := vpc_descriptor "10.9.0.0/16" "vpca-1" ]}.

Definition mixed_vpcs : gmap string json :=
  {[ "VPCvpc0a1b" := vpc_descriptor "10.0.0.0/16" "vpc-0a-1b";
     "VPCVPC1" := vpc_descriptor "10.0.0.0/16" "VPC1" ]}.

Definition sgs : gmap string json :=
  {[ "SecurityGroupsg0a1b" := Sample.web_descriptor ]}.

Definition instances : gmap string json :=
  {[ "EC2Instancei0456" := instance_descriptor "t2.micro" [JStr "sg-0a1b"] "i-0456";
     "EC2Instancei0789" := instance_descriptor "t3.small" [] "i-0789" ]}.

Definition template_text : string :=
  dump 16 (cf_template (instances ∪ (∅ ∪ vpcs))).

End Results.

Lemma run_writes_merged_template_witness :
  run placeholder_repr (rt := table_runtime Exports.documents)
    ["cloudformation_converter.py"; "exports"]
    (@World (table_runtime Exports.documents) Exports.disk [])
  = (0%Z,
     @World (table_runtime Exports.documents)
       (<["exports/cloudformation-template.json" := File Results.template_text]>
          Exports.disk)
       [ "Converting exports from exports to CloudFormation...";
         "Warning: exports/security-groups.json not found";
         "CloudFormation template created: exports/cloudformation-template.json";
         "Resources converted: 4" ]).
Proof.
  etrans.
  - apply (run_writes_merged_template placeholder_repr
             (rt := table_runtime Exports.documents)
             "cloudformation_converter.py" "exports"
             (@World (table_runtime Exports.documents) Exports.disk [])
             Exports.vpcs (JObj ∅) Exports.instances
             [] ["Warning: exports/security-groups.json not found"] []
             Results.vpcs ∅ Results.instances
             (<["exports/cloudformation-template.json" := File Results.template_text]>
                Exports.disk)).
    1-7: vm_compute; reflexivity.
    reflexivity.
  - f_equal.
Defined.

Lemma run_aborts_on_converter_error_witness :
  run placeholder_repr (rt := table_runtime Exports.documents)
    ["cloudformation_converter.py"; "exports"]
    (@World (table_runtime Exports.documents) Exports.bad_disk [])
  = (1%Z,
     @World (table_runtime Exports.documents) Exports.bad_disk
       [ "Converting exports from exports to CloudFormation...";
         "Warning: exports/security-groups.json not found";
         "Warning: exports/ec2-instances.json not found" ]).
Proof.
  apply (run_aborts_on_converter_error placeholder_repr
           (rt := table_runtime Exports.documents)
           "cloudformation_converter.py" "exports"
           (@World (table_runtime Exports.documents) Exports.bad_disk [])
           Exports.bad_vpcs (JObj ∅) (JObj ∅)
           [] ["Warning: exports/security-groups.json not found"]
           ["Warning: exports/ec2-instances.json not found"]).
  - vm_compute. reflexivity.
  - vm_compute. reflexivity.
  - vm_compute. reflexivity.
  - vm_compute. reflexivity.
  - left. exists AttributeError. vm_compute. reflexivity.
Defined.

Lemma converter_keys_never_collide_witness :
  Results.vpcs ##ₘ Results.sgs ∧ Results.vpcs ##ₘ Results.instances ∧
  Results.sgs ##ₘ Results.instances ∧
  size (update (update (update ∅ Results.vpcs) Results.sgs) Results.instances) = 5.
Proof.
  assert (convert_vpc_to_cf placeholder_repr Exports.vpcs = Ok Results.vpcs)
    as H1 by (vm_compute; reflexivity).
  assert (convert_security_groups_to_cf placeholder_repr Exports.sgs = Ok Results.sgs)
    as H2 by (vm_compute; reflexivity).
  assert (convert_ec2_to_cf placeholder_repr Exports.instances = Ok Results.instances)
    as H3 by (vm_compute; reflexivity).
  destruct (converter_keys_never_collide placeholder_repr _ _ _ _ _ _ H1 H2 H3)
    as (_ & _ & _ & H12 & H13 & H23 & _ & _ & Hsize).
  do 3 (split; [assumption|]).
  rewrite Hsize. vm_compute. reflexivity.
Defined.

Lemma converter_keys_hyphen_free_witness : hyphen_free "VPCvpc0a".
Proof.
  assert (convert_vpc_to_cf placeholder_repr Exports.vpcs = Ok Results.vpcs)
    as H1 by (vm_compute; reflexivity).
  apply (converter_keys_hyphen_free placeholder_repr _ _ "VPCvpc0a" (or_introl H1)).
  eexists. vm_compute. reflexivity.
Defined.

Lemma vpc_later_record_wins_witness :
  Results.colliding_vpcs !! "VPCvpca1"
  = Some (Results.vpc_descriptor "10.9.0.0/16" "vpca-1") ∧
  size Results.colliding_vpcs ≤ 2.
Proof.
  apply (vpc_later_record_wins placeholder_repr
           {[ "Vpcs" := JList Exports.colliding_vpcs ]}
           [JObj {[ "VpcId" := JStr "vpc-a1"; "CidrBlock" := JStr "10.0.0.0/16" ]}]
           []
           (JObj {[ "VpcId" := JStr "vpca-1"; "CidrBlock" := JStr "10.9.0.0/16" ]})).
  - vm_compute. reflexivity.
  - vm_compute. reflexivity.
  - intros j y d' Hy. by destruct j.
  - vm_compute. reflexivity.
Defined.

Lemma ingress_is_comprehension_witness :
  rule_loop [JObj Sample.ssh_rule; Sample.bare_rule; JObj ∅] [] = Ok Sample.ssh_entries ∧
  length (concat (rule_entries <$> [JObj Sample.ssh_rule; Sample.bare_rule; JObj ∅])) = 2.
Proof.
  assert (Forall rule_shape [JObj Sample.ssh_rule; Sample.bare_rule; JObj ∅]) as Hshape.
  { repeat apply Forall_cons_2; [| | |apply Forall_nil_2].
    - eexists. split; [reflexivity|]. right. eexists. split; [vm_compute; reflexivity|].
      repeat constructor; by eexists.
    - eexists. split; [reflexivity|]. right. eexists. split; [vm_compute; reflexivity|].
      constructor.
    - eexists. split; [reflexivity|]. left. reflexivity. }
  destruct (ingress_is_comprehension placeholder_repr _ Hshape) as (Hloop & _ & Hlength).
  split.
  - rewrite Hloop. vm_compute. reflexivity.
  - rewrite Hlength. vm_compute. reflexivity.
Defined.

Lemma ec2_flattens_reservations_witness :
  convert_ec2_to_cf placeholder_repr Exports.instances
  = instance_loop placeholder_repr [Sample.good_instance; Exports.other_instance] ∅.
Proof.
  apply (ec2_flattens_reservations placeholder_repr
           {[ "Reservations" := JList Exports.reservations ]} Exports.reservations).
  - vm_compute. reflexivity.
  - repeat apply Forall_cons_2; [| | |apply Forall_nil_2].
    + eexists. split; [reflexivity|]. right. eexists.
      split; [vm_compute; reflexivity|]. by apply Forall_true.
    + eexists. split; [reflexivity|]. left. vm_compute. reflexivity.
    + eexists. split; [reflexivity|]. right. eexists.
      split; [vm_compute; reflexivity|]. by apply Forall_true.
Defined.

Lemma ec2_count_and_tags_witness :
  ∃ resources : gmap string json,
    convert_ec2_to_cf placeholder_repr Exports.instances = Ok resources ∧
    size resources = 2 ∧
    ∃ d, resources !! "EC2Instancei0789" = Some d ∧
         name_tag d = Some (JStr "Imported-i-0789").
Proof.
  destruct (ec2_count_and_tags placeholder_repr
              {[ "Reservations" := JList Exports.reservations ]}
              Exports.reservations ["i-0456"; "i-0789"])
    as (resources & Hconv & Hsize & Htags).
  - vm_compute. reflexivity.
  - repeat apply Forall_cons_2; [| | |apply Forall_nil_2].
    + eexists. split; [reflexivity|]. right. eexists.
      split; [vm_compute; reflexivity|].
      apply Forall_cons_2; [|apply Forall_nil_2].
      eexists. split; [reflexivity|]. split.
      * right. eexists. vm_compute. reflexivity.
      * right. eexists. split; [vm_compute; reflexivity|].
        apply Forall_cons_2; [|apply Forall_nil_2].
        eexists. split; [reflexivity|]. eexists. vm_compute. reflexivity.
    + eexists. split; [reflexivity|]. left. vm_compute. reflexivity.
    + eexists. split; [reflexivity|]. right. eexists.
      split; [vm_compute; reflexivity|].
      apply Forall_cons_2; [|apply Forall_nil_2].
      eexists. split; [reflexivity|]. split.
      * right. eexists. vm_compute. reflexivity.
      * left. vm_compute. reflexivity.
  - change (Forall2 (λ instance id, instance_native_id instance = Some id)
              [Sample.good_instance; Exports.other_instance] ["i-0456"; "i-0789"]).
    repeat constructor.
  - apply (bool_decide_unpack _). vm_compute. exact I.
  - exists resources. split; [exact Hconv|]. split; [exact Hsize|].
    apply (Htags "i-0789"). apply list_elem_of_further, list_elem_of_here.
Defined.

Lemma sg_count_and_keys_witness :
  ∃ resources : gmap string json,
    convert_security_groups_to_cf placeholder_repr Exports.sgs = Ok resources ∧
    size resources = 1 ∧
    ∀ k, is_Some (resources !! k) ↔ k ∈ ["SecurityGroupsg0a1b"].
Proof.
  apply (sg_count_and_keys placeholder_repr
           {[ "SecurityGroups" := JList [Sample.default_sg; Sample.web_sg] ]}
           [Sample.default_sg; Sample.web_sg] ["sg-0a1b"]).
  - vm_compute. reflexivity.
  - repeat apply Forall_cons_2; [| |apply Forall_nil_2].
    + eexists. split; [reflexivity|]. split.
      * right. eexists. vm_compute. reflexivity.
      * left. vm_compute. reflexivity.
    + eexists. split; [reflexivity|]. split.
      * right. eexists. vm_compute. reflexivity.
      * right. eexists. split; [vm_compute; reflexivity|].
        apply Forall_cons_2; [|apply Forall_nil_2].
        eexists. split; [reflexivity|]. right. eexists.
        split; [vm_compute; reflexivity|]. repeat constructor; by eexists.
  - change (Forall2 (λ sg id, sg_native_id sg = Some id) [Sample.web_sg] ["sg-0a1b"]).
    repeat constructor.
  - apply (bool_decide_unpack _). vm_compute. exact I.
Defined.

Lemma entries_typed_and_tagged_witness :
  well_tagged "AWS::EC2::VPC" (Results.vpc_descriptor "10.1.0.0/16" "vpc-0a") ∧
  well_tagged "AWS::EC2::Instance"
    (Results.instance_descriptor "t3.small" [] "i-0789").
Proof.
  split.
  - apply (proj1 (entries_typed_and_tagged placeholder_repr Exports.vpcs
                    Results.vpcs "VPCvpc0a" _ ltac:(vm_compute; reflexivity))).
    vm_compute. reflexivity.
  - apply (proj2 (proj2 (entries_typed_and_tagged placeholder_repr Exports.instances
                    Results.instances "EC2Instancei0789" _
                    ltac:(vm_compute; reflexivity)))).
    vm_compute. reflexivity.
Defined.

Lemma ssh_rule_two_entries_witness :
  Results.sgs !! "SecurityGroupsg0a1b" = Some Sample.web_descriptor ∧
  ingress_of Sample.web_descriptor = Some (JList Sample.ssh_entries).
Proof.
  assert (sg_entry placeholder_repr Sample.web_sg
          = Ok (Some ("SecurityGroupsg0a1b", Sample.web_descriptor))) as He
    by (vm_compute; reflexivity).
  destruct (ssh_rule_two_entries placeholder_repr
              {[ "SecurityGroups" := JList [Sample.default_sg; Sample.web_sg] ]}
              {[ "IpPermissions" := JList [JObj Sample.ssh_rule];
                 "GroupId" := JStr "sg-0a1b"; "GroupName" := JStr "web" ]}
              Sample.ssh_rule
              {[ "CidrIp" := JStr "10.0.0.0/8" ]} {[ "CidrIp" := JStr "0.0.0.0/0" ]}
              [Sample.default_sg] [] [] [] Results.sgs)
    as (id & d & before & after & Hid & _ & Hstored & Hentry & Hbefore & Hafter & Hingress).
  1-10: vm_compute; reflexivity.
  vm_compute in Hid. injection Hid as <-.
  pose proof (eq_trans (eq_sym He) Hentry) as Heq. injection Heq as <-.
  cbn in Hbefore, Hafter. injection Hbefore as <-. injection Hafter as <-.
  split.
  - apply Hstored. intros sg' d' Hin. by inversion Hin.
  - exact Hingress.
Defined.

Lemma vpc_key_derivation_witness :
  Results.mixed_vpcs !! "VPCVPC1"
  = Some (Results.vpc_descriptor "10.0.0.0/16" "VPC1") ∧
  Results.mixed_vpcs !! "VPCvpc0a1b"
  = Some (Results.vpc_descriptor "10.0.0.0/16" "vpc-0a-1b").
Proof.
  assert (vpc_entry placeholder_repr 1 (JObj ∅)
          = Ok ("VPCVPC1", Results.vpc_descriptor "10.0.0.0/16" "VPC1")) as He1
    by (vm_compute; reflexivity).
  assert (vpc_entry placeholder_repr 0 (JObj {[ "VpcId" := JStr "vpc-0a-1b" ]})
          = Ok ("VPCvpc0a1b", Results.vpc_descriptor "10.0.0.0/16" "vpc-0a-1b")) as He0
    by (vm_compute; reflexivity).
  split.
  - destruct (vpc_key_derivation placeholder_repr
                {[ "Vpcs" := JList Exports.mixed_vpcs ]}
                [JObj {[ "VpcId" := JStr "vpc-0a-1b" ]}] [] ∅ Results.mixed_vpcs)
      as (key & d & Hentry & _ & Hstored & Hnone & _).
    1-2: vm_compute; reflexivity.
    pose proof (eq_trans (eq_sym He1) Hentry) as Heq. injection Heq as <- <-.
    apply Hstored. intros j y d' Hy. by destruct j.
  - destruct (vpc_key_derivation placeholder_repr
                {[ "Vpcs" := JList Exports.mixed_vpcs ]}
                [] [JObj ∅] {[ "VpcId" := JStr "vpc-0a-1b" ]} Results.mixed_vpcs)
      as (key & d & Hentry & _ & Hstored & _ & Hnamed).
    1-2: vm_compute; reflexivity.
    pose proof (eq_trans (eq_sym He0) Hentry) as Heq. injection Heq as <- <-.
    apply Hstored. intros [|j] y d' Hy; [|done].
    injection Hy as <-. intros Hbad.
    pose proof (eq_trans (eq_sym He1) Hbad) as Heq. by injection Heq.
Defined.

Lemma sg_name_tag_witness :
  Results.sgs !! "SecurityGroupsg0a1b" = Some Sample.web_descriptor ∧
  name_tag Sample.web_descriptor = Some (JStr "Imported-web").
Proof.
  assert (sg_entry placeholder_repr Sample.web_sg
          = Ok (Some ("SecurityGroupsg0a1b", Sample.web_descriptor))) as He
    by (vm_compute; reflexivity).
  destruct (sg_name_tag placeholder_repr
              {[ "SecurityGroups" := JList [Sample.default_sg; Sample.web_sg] ]}
              {[ "IpPermissions" := JList [JObj Sample.ssh_rule];
                 "GroupId" := JStr "sg-0a1b"; "GroupName" := JStr "web" ]}
              [Sample.default_sg] [] Results.sgs)
    as (id & d & Hid & _ & Hstored & Hentry & Hname & _).
  1-3: vm_compute; reflexivity.
  vm_compute in Hid. injection Hid as <-.
  pose proof (eq_trans (eq_sym He) Hentry) as Heq. injection Heq as <-.
  split.
  - apply Hstored. intros sg' d' Hin. by inversion Hin.
  - apply (Hname "web"). vm_compute. reflexivity.
Defined.

Lemma run_failed_write_witness :
  run placeholder_repr (rt := quota_runtime 40)
    ["cloudformation_converter.py"; "exports"]
    (@World (quota_runtime 40) Sample.empty_dir [])
  = (1%Z,
     @World (quota_runtime 40)
       (<["exports/cloudformation-template.json" :=
            File (take_string 40 (dump 16 (cf_template (∅ ∪ (∅ ∪ ∅)))))]>
          (<["exports/cloudformation-template.json" := File ""]> Sample.empty_dir))
       [ "Converting exports from exports to CloudFormation...";
         "Warning: exports/vpcs.json not found";
         "Warning: exports/security-groups.json not found";
         "Warning: exports/ec2-instances.json not found" ]).
Proof.
  apply (proj2 (run_failed_write placeholder_repr (rt := quota_runtime 40)
                  "cloudformation_converter.py" "exports"
                  (@World (quota_runtime 40) Sample.empty_dir [])
                  (JObj ∅) (JObj ∅) (JObj ∅)
                  ["Warning: exports/vpcs.json not found"]
                  ["Warning: exports/security-groups.json not found"]
                  ["Warning: exports/ec2-instances.json not found"]
                  ∅ ∅ ∅
                  ltac:(vm_compute; reflexivity) ltac:(vm_compute; reflexivity)
                  ltac:(vm_compute; reflexivity) ltac:(vm_compute; reflexivity)
                  ltac:(vm_compute; reflexivity) ltac:(vm_compute; reflexivity)
                  ltac:(vm_compute; reflexivity))
           (<["exports/cloudformation-template.json" := File ""]> Sample.empty_dir)
           _ (OtherError "OSError")).
  - vm_compute. reflexivity.
  - vm_compute. reflexivity.
Defined.
